(** * kubeai request routing: HTTP model proxy and pub/sub messenger

    A shallow embedding of [internal/modelproxy/handler.go] (the HTTP
    handler with its retry loop) and of the messenger worker (receive loop,
    request parsing, response publishing), together with the properties the
    specification states about them.

    Conventions
    - Go [int] and [time.Duration] are 64-bit signed integers: they are
      values of [Z] and the arithmetic of the source is followed by
      [wrap64].
    - A Go [error] is a value of [error]; a possibly-nil error is an
      [option error]; a possibly-nil pointer [*T] is an [option T].
    - Collaborators behind interfaces (model client, load balancer, backend
      transport, pub/sub topic, [encoding/json]) are records of functions;
      the calls a run makes are logged as a list of events, newest first.

    Part I holds the definitions, Part II the theorems. *)

From Stdlib Require Import ZArith String Ascii List Lia Bool.
From stdpp Require Import base gmap strings list pretty.

#[local] Set Warnings "-register-all".
#[local] Open Scope Z_scope.

(** * Part I: definitions *)

(** ** Go machine integers *)

Module GoInt.

Definition min_int : Z := - 2 ^ 63.
Definition max_int : Z := 2 ^ 63 - 1.

(** Two's complement wrap-around of a 64-bit signed integer. *)
Definition wrap64 (z : Z) : Z := (z + 2 ^ 63) mod 2 ^ 64 - 2 ^ 63.

Definition in_range (z : Z) : Prop := min_int <= z <= max_int.

(** [n++] *)
Definition incr (n : Z) : Z := wrap64 (n + 1).

(** [a * b] on [int64] *)
Definition mul (a b : Z) : Z := wrap64 (a * b).

End GoInt.

(** ** Go errors *)

(** The package-level sentinels the code compares against, leaf errors
    created elsewhere, and [fmt.Errorf("...: %w", err)] wrapping. *)
Inductive error : Type :=
| ErrRetry                                   (* var ErrRetry = errors.New("retry") *)
| context_Canceled
| context_DeadlineExceeded
| errors_New (msg : string)
| fmt_Errorf (prefix : string) (wrapped : error).

Inductive sentinel : Type := IsErrRetry | IsCanceled | IsDeadlineExceeded.

(** [errors.Is(err, target)] for a sentinel target: identity with the
    target somewhere along the unwrap chain. *)
Fixpoint errors_Is (err : error) (target : sentinel) : bool :=
  match err, target with
  | ErrRetry, IsErrRetry => true
  | context_Canceled, IsCanceled => true
  | context_DeadlineExceeded, IsDeadlineExceeded => true
  | fmt_Errorf _ inner, _ => errors_Is inner target
  | _, _ => false
  end.

(** [errors.Is(nil, target)] is false. *)
Definition errors_Is_opt (err : option error) (target : sentinel) : bool :=
  match err with
  | Some e => errors_Is e target
  | None => false
  end.

(** [err.Error()] *)
Fixpoint Error (err : error) : string :=
  match err with
  | ErrRetry => "retry"
  | context_Canceled => "context canceled"
  | context_DeadlineExceeded => "context deadline exceeded"
  | errors_New msg => msg
  | fmt_Errorf prefix inner => prefix +:+ Error inner
  end.

(** [err != nil] *)
Definition not_nil {A} (o : option A) : bool :=
  match o with Some _ => true | None => false end.

(** ** apiutils: the model/adapter delimiter convention *)

Module Apiutils.

(** [strings.Cut(s, sep)] for a one-character separator: the text before
    and after the first occurrence of [sep], if there is one. *)
Fixpoint strings_Cut (sep : ascii) (s : string) : option (string * string) :=
  match s with
  | EmptyString => None
  | String c rest =>
      if Ascii.eqb c sep then Some (EmptyString, rest)
      else match strings_Cut sep rest with
           | Some (before, after) => Some (String c before, after)
           | None => None
           end
  end.

Fixpoint contains (sep : ascii) (s : string) : bool :=
  match s with
  | EmptyString => false
  | String c rest => Ascii.eqb c sep || contains sep rest
  end.

Definition adapterSeparator : ascii := "_"%char.

(** Modelled from the spec: package [apiutils] (SplitModelAdapter and
    MergeModelAdapter) is imported by the handler and the messenger but is
    not among the sources.  The spec gives the requested-model string the
    form "<model>" or "<model>_<adapter>"; the model is the text before
    the delimiter, the adapter the text after it. *)
Definition SplitModelAdapter (s : string) : string * string :=
  match strings_Cut adapterSeparator s with
  | Some (model, adapter) => (model, adapter)
  | None => (s, EmptyString)
  end.

(** Modelled from the spec: the string of the form "<model>_<adapter>",
    or "<model>" when there is no adapter. *)
Definition MergeModelAdapter (model adapter : string) : string :=
  if decide (adapter = EmptyString) then model
  else model +:+ String adapterSeparator adapter.

End Apiutils.

(** ** package modelproxy: the HTTP handler *)

Module Modelproxy.

Definition StatusBadRequest : Z := 400.
Definition StatusNotFound : Z := 404.
Definition StatusInternalServerError : Z := 500.
Definition StatusBadGateway : Z := 502.
Definition StatusServiceUnavailable : Z := 503.
Definition StatusGatewayTimeout : Z := 504.

(** [loadbalancer.AddressRequest] *)
Record AddressRequest : Type := {
  Model : string;
  Adapter : string
}.

(** The [Handler] struct; [modelScaler] and [loadBalancer] live in [Env].
    [retryCodes] is a [map[int]struct{}] that may be nil. *)
Record Handler : Type := {
  maxRetries : Z;
  retryCodes : option (gset Z)
}.

Definition defaultRetryCodes : gset Z :=
  {[ StatusInternalServerError; StatusBadGateway;
     StatusServiceUnavailable; StatusGatewayTimeout ]}.

Definition isRetryCode (h : Handler) (status : Z) : bool :=
  match retryCodes h with
  | Some codes => bool_decide (status ∈ codes)
  | None => bool_decide (status ∈ defaultRetryCodes)
  end.

(** The fields of [proxyRequest] that the handler reads and writes. *)
Record proxyRequest : Type := {
  id : string;
  requestedModel : string;
  model : string;
  adapter : string;
  selectors : list string;
  attempt : Z;
  status : Z;
  body : string
}.

(** What [pr.parse()] fills in when it succeeds. *)
Record parsed : Type := {
  p_requestedModel : string;
  p_model : string;
  p_adapter : string;
  p_selectors : list string;
  p_body : string
}.

(** The collaborators of one inbound request.  The load balancer and the
    backend are stateful: their answer may depend on how many calls were
    made before ([nat] argument). *)
Record Env : Type := {
  (* pr.parse(): the type proxyRequest and its parser are not among the
     sources, the outcome of parsing is an input here *)
  parse : error + parsed;
  LookupModel : string -> string -> list string -> bool * option error;
  ScaleAtLeastOneReplica : string -> option error;
  AwaitBestAddress : nat -> AddressRequest -> string * option error;
  (* the transport of httputil.ReverseProxy: a status code, or no response *)
  RoundTrip : nat -> string -> string -> Z + error;
  (* r.Context().Err() when the error handler runs after n backend requests *)
  ctxErr : nat -> option error
}.

Inductive event : Type :=
| SetHeader (key value : string)
| MetricAdd (requested : string) (delta : Z)
| CallAwaitBestAddress (call : nat) (req : AddressRequest)
| BackendRequest (addr : string) (sent : string)
| AttemptIncremented (now : Z)
| DecrementInflight (call : nat)
| SendErrorResponse (code : Z) (format : string) (args : list string)
| CopyResponse (code : Z).

Record state : Type := {
  pr : proxyRequest;
  lbCalls : nat;
  backendReqs : nat;
  log : list event
}.

Definition emit (e : event) (st : state) : state :=
  {| pr := pr st; lbCalls := lbCalls st; backendReqs := backendReqs st;
     log := e :: log st |}.

Definition with_pr (f : proxyRequest -> proxyRequest) (st : state) : state :=
  {| pr := f (pr st); lbCalls := lbCalls st; backendReqs := backendReqs st;
     log := log st |}.

Definition set_status (code : Z) (p : proxyRequest) : proxyRequest :=
  {| id := id p; requestedModel := requestedModel p; model := model p;
     adapter := adapter p; selectors := selectors p; attempt := attempt p;
     status := code; body := body p |}.

(** [pr.attempt++] *)
Definition incr_attempt (p : proxyRequest) : proxyRequest :=
  {| id := id p; requestedModel := requestedModel p; model := model p;
     adapter := adapter p; selectors := selectors p;
     attempt := GoInt.incr (attempt p);
     status := status p; body := body p |}.

(** Modelled from the spec: [newProxyRequest] is not among the sources;
    the spec starts [attempt] at 0. *)
Definition newProxyRequest (rid : string) : proxyRequest :=
  {| id := rid; requestedModel := ""; model := ""; adapter := "";
     selectors := []; attempt := 0; status := 0; body := "" |}.

Definition apply_parsed (p : parsed) (q : proxyRequest) : proxyRequest :=
  {| id := id q; requestedModel := p_requestedModel p; model := p_model p;
     adapter := p_adapter p; selectors := p_selectors p;
     attempt := attempt q; status := status q; body := p_body p |}.

(** [pr.sendErrorResponse(w, code, format, args...)]: the call is logged
    with its arguments rendered. *)
Definition sendErrorResponse (code : Z) (format : string) (args : list string)
    (st : state) : state :=
  emit (SendErrorResponse code format args) st.

(** [proxy.ModifyResponse] *)
Definition ModifyResponse (h : Handler) (StatusCode : Z) (st : state)
    : option error * state :=
  let st := with_pr (set_status StatusCode) st in
  if isRetryCode h StatusCode && (attempt (pr st) <? maxRetries h)
  then (Some ErrRetry, st)
  else (None, st).

(** [proxy.ErrorHandler]; [retry] is the recursive call [h.proxyHTTP(w, pr)]. *)
Definition ErrorHandler (h : Handler) (env : Env)
    (retry : state -> option state) (err : option error) (st : state)
    : option state :=
  if not_nil err && negb (not_nil (ctxErr env (backendReqs st)))
     && (attempt (pr st) <? maxRetries h)
  then
    let st := with_pr incr_attempt st in
    let st := emit (AttemptIncremented (attempt (pr st))) st in
    retry st
  else if negb (errors_Is_opt err IsErrRetry)
  then Some (sendErrorResponse StatusBadGateway "proxy: exceeded retries: %v/%v"
               [pretty (attempt (pr st)); pretty (maxRetries h)] st)
  else Some st.

(** [httputil.ReverseProxy.ServeHTTP] as far as the handler depends on it:
    the rewritten request goes to [addr] with the cached body of
    [pr.httpRequest()]; a transport error goes to the error handler; a
    response goes through [ModifyResponse], whose error goes to the error
    handler as well, and is otherwise copied to the client. *)
Definition ReverseProxy_ServeHTTP (env : Env) (addr : string)
    (modifyResponse : Z -> state -> option error * state)
    (errorHandler : option error -> state -> option state)
    (st : state) : option state :=
  let n := backendReqs st in
  let sent := body (pr st) in
  let st := {| pr := pr st; lbCalls := lbCalls st; backendReqs := S n;
               log := BackendRequest addr sent :: log st |} in
  match RoundTrip env n addr sent with
  | inr err => errorHandler (Some err) st
  | inl code =>
      match modifyResponse code st with
      | (Some err, st) => errorHandler (Some err) st
      | (None, st) => Some (emit (CopyResponse code) st)
      end
  end.

(** [Handler.proxyHTTP].  The recursion of the source (through the error
    handler) is bounded by [fuel]; [None] means the fuel ran out. *)
Fixpoint proxyHTTP (fuel : nat) (h : Handler) (env : Env) (st : state)
    : option state :=
  match fuel with
  | O => None
  | S fuel =>
      let call := lbCalls st in
      let req := {| Model := model (pr st); Adapter := adapter (pr st) |} in
      let '(addr, err) := AwaitBestAddress env call req in
      let st := {| pr := pr st; lbCalls := S call; backendReqs := backendReqs st;
                   log := CallAwaitBestAddress call req :: log st |} in
      match err with
      | Some err =>
          if errors_Is err IsCanceled then
            Some (sendErrorResponse StatusInternalServerError
                    "request cancelled while finding host: %v" [Error err] st)
          else if errors_Is err IsDeadlineExceeded then
            Some (sendErrorResponse StatusGatewayTimeout
                    "request timeout while finding host: %v" [Error err] st)
          else
            Some (sendErrorResponse StatusGatewayTimeout
                    "unable to find host: %v" [Error err] st)
      | None =>
          (* defer decrementInflight() *)
          match ReverseProxy_ServeHTTP env addr (ModifyResponse h)
                  (ErrorHandler h env (proxyHTTP fuel h env)) st with
          | Some st => Some (emit (DecrementInflight call) st)
          | None => None
          end
      end
  end.

(** Enough fuel for every run that starts at [st]. *)
Definition fuel_for (h : Handler) (st : state) : nat :=
  S (Z.to_nat (maxRetries h - attempt (pr st))).

(** [Handler.ServeHTTP] *)
Definition ServeHTTP (h : Handler) (env : Env) (rid : string) : option state :=
  let st := {| pr := newProxyRequest rid; lbCalls := O; backendReqs := O;
               log := [SetHeader "X-Proxy" "lingo"] |} in
  match parse env with
  | inl err =>
      Some (sendErrorResponse StatusBadRequest "unable to parse model: %v"
              [Error err] st)
  | inr p =>
      let st := with_pr (apply_parsed p) st in
      let st := emit (MetricAdd (requestedModel (pr st)) 1) st in
      (* defer metrics.InferenceRequestsActive.Add(-1) *)
      let finish st := emit (MetricAdd (p_requestedModel p) (-1)) st in
      let '(modelExists, err) :=
        LookupModel env (model (pr st)) (adapter (pr st)) (selectors (pr st)) in
      match err with
      | Some err =>
          Some (finish (sendErrorResponse StatusInternalServerError
                          "unable to resolve model: %v" [Error err] st))
      | None =>
          if negb modelExists then
            Some (finish (sendErrorResponse StatusNotFound "model not found: %v"
                            [requestedModel (pr st)] st))
          else
            match ScaleAtLeastOneReplica env (model (pr st)) with
            | Some err =>
                Some (finish (sendErrorResponse StatusInternalServerError
                                "unable to scale model: %v" [Error err] st))
            | None => option_map finish (proxyHTTP (fuel_for h st) h env st)
            end
      end
  end.

(** *** Observations on a log *)

(** The events of a log that [pick] selects, oldest first. *)
Definition chronicle {A} (pick : event -> option A) (l : list event) : list A :=
  omap pick (rev l).

Definition as_response (e : event) : option event :=
  match e with
  | SendErrorResponse _ _ _ | CopyResponse _ => Some e
  | _ => None
  end.

Definition as_status (e : event) : option Z :=
  match e with
  | SendErrorResponse code _ _ | CopyResponse code => Some code
  | _ => None
  end.

Definition as_backend_request (e : event) : option (string * string) :=
  match e with
  | BackendRequest addr sent => Some (addr, sent)
  | _ => None
  end.

Definition as_await_call (e : event) : option nat :=
  match e with
  | CallAwaitBestAddress call _ => Some call
  | _ => None
  end.

Definition as_completion (e : event) : option nat :=
  match e with
  | DecrementInflight call => Some call
  | _ => None
  end.

Definition as_increment (e : event) : option Z :=
  match e with
  | AttemptIncremented now => Some now
  | _ => None
  end.

(** What was written to the client, and its status codes. *)
Definition responses : list event -> list event := chronicle as_response.
Definition client_status : list event -> list Z := chronicle as_status.

(** The backend requests of a run: address and body. *)
Definition backend_requests : list event -> list (string * string) :=
  chronicle as_backend_request.

(** The calls of [AwaitBestAddress]. *)
Definition await_calls : list event -> list nat := chronicle as_await_call.

(** The completion callbacks invoked, each named by the call of
    [AwaitBestAddress] that returned it. *)
Definition completions : list event -> list nat := chronicle as_completion.

(** The values [pr.attempt] took after each [pr.attempt++]. *)
Definition increments : list event -> list Z := chronicle as_increment.

(** *** One invocation of [proxyHTTP], and a run as a chain of them *)

(** The request [proxyHTTP] hands to the load balancer. *)
Definition address_request (st : state) : AddressRequest :=
  {| Model := model (pr st); Adapter := adapter (pr st) |}.

(** The state after [AwaitBestAddress] has been called. *)
Definition awaited (st : state) : state :=
  {| pr := pr st; lbCalls := S (lbCalls st); backendReqs := backendReqs st;
     log := CallAwaitBestAddress (lbCalls st) (address_request st) :: log st |}.

(** The error response for a failed wait. *)
Definition no_host (err : error) (st : state) : state :=
  if errors_Is err IsCanceled then
    sendErrorResponse StatusInternalServerError
      "request cancelled while finding host: %v" [Error err] st
  else if errors_Is err IsDeadlineExceeded then
    sendErrorResponse StatusGatewayTimeout
      "request timeout while finding host: %v" [Error err] st
  else
    sendErrorResponse StatusGatewayTimeout "unable to find host: %v" [Error err] st.

(** How one backend attempt ends: the handler is done, or it calls
    [proxyHTTP] again. *)
Inductive verdict : Type :=
| Stop (st : state)
| Again (st : state).

Definition after_error (h : Handler) (env : Env) (err : option error)
    (st : state) : verdict :=
  match ErrorHandler h env (fun _ => None) err st with
  | Some st => Stop st
  | None =>
      let st := with_pr incr_attempt st in
      Again (emit (AttemptIncremented (attempt (pr st))) st)
  end.

Definition attempt_once (h : Handler) (env : Env) (addr : string) (st : state)
    : verdict :=
  let n := backendReqs st in
  let sent := body (pr st) in
  let st := {| pr := pr st; lbCalls := lbCalls st; backendReqs := S n;
               log := BackendRequest addr sent :: log st |} in
  match RoundTrip env n addr sent with
  | inr err => after_error h env (Some err) st
  | inl code =>
      match ModifyResponse h code st with
      | (Some err, st) => after_error h env (Some err) st
      | (None, st) => Stop (emit (CopyResponse code) st)
      end
  end.

(** A run of [proxyHTTP] from a state to the state it returns in. *)
Inductive Run (h : Handler) (env : Env) : state -> state -> Prop :=
| Run_no_host st addr err :
    AwaitBestAddress env (lbCalls st) (address_request st) = (addr, Some err) ->
    Run h env st (no_host err (awaited st))
| Run_stop st addr st' :
    AwaitBestAddress env (lbCalls st) (address_request st) = (addr, None) ->
    attempt_once h env addr (awaited st) = Stop st' ->
    Run h env st (emit (DecrementInflight (lbCalls st)) st')
| Run_again st addr st' st'' :
    AwaitBestAddress env (lbCalls st) (address_request st) = (addr, None) ->
    attempt_once h env addr (awaited st) = Again st' ->
    Run h env st' st'' ->
    Run h env st (emit (DecrementInflight (lbCalls st)) st'').


(** The state in which [ServeHTTP] calls [proxyHTTP]. *)
Definition entry (rid : string) (p : parsed) : state :=
  {| pr := apply_parsed p (newProxyRequest rid); lbCalls := O;
     backendReqs := O;
     log := [MetricAdd (p_requestedModel p) 1; SetHeader "X-Proxy" "lingo"] |}.

(** A request that [ServeHTTP] answered without calling [proxyHTTP]. *)
Definition early (st : state) : Prop :=
  attempt (pr st) = 0 /\ lbCalls st = O /\ backendReqs st = O /\
  backend_requests (log st) = [] /\ await_calls (log st) = [] /\
  completions (log st) = [] /\ increments (log st) = [].


End Modelproxy.

(** ** package messenger: the pub/sub worker *)

Module Messenger.

Definition StatusBadRequest : Z := 400.
Definition StatusNotFound : Z := 404.
Definition StatusInternalServerError : Z := 500.
Definition StatusBadGateway : Z := 502.

(** [time.Second], in nanoseconds *)
Definition Second : Z := 1000000000.

(** A decoded JSON value, as [encoding/json] stores it in an
    [interface{}]; numbers are kept as their literal. *)
Inductive json : Type :=
| JNull
| JBool (b : bool)
| JNumber (literal : string)
| JString (s : string)
| JArray (items : list json)
| JObject (fields : gmap string json).

(** The part of [pubsub.Message] the worker uses. *)
Record Message : Type := {
  LoggableID : string;
  Body : string;
  Nackable : bool
}.

(** The anonymous struct the message is decoded into. *)
Record payload : Type := {
  payload_Metadata : option (gmap string json);
  payload_Path : string;
  payload_Body : string            (* json.RawMessage *)
}.

(** The anonymous struct that is published. *)
Record response : Type := {
  response_Metadata : option (gmap string json);
  response_StatusCode : Z;
  response_Body : string           (* json.RawMessage *)
}.

(** [encoding/json] and the [%q] verb of [fmt], at the types the worker
    calls them. *)
Record Json : Type := {
  Unmarshal_payload : string -> error + payload;
  Unmarshal_map : string -> error + gmap string json;
  Marshal_map : gmap string json -> error + string;
  Marshal_response : response -> error + string;
  Quote : string -> string
}.

Record request : Type := {
  msg : Message;
  metadata : option (gmap string json);
  path : string;
  body : string;                   (* json.RawMessage *)
  requestedModel : string;
  model : string;
  adapter : string
}.

(** [strings.HasPrefix(s, "/")] *)
Definition HasPrefix_slash (s : string) : bool :=
  match s with
  | String c _ => Ascii.eqb c "/"%char
  | EmptyString => false
  end.

(** [parseRequest]: the request pointer (nil is [None]) and the error. *)
Definition parseRequest (J : Json) (m : Message) : option request * option error :=
  let req := {| msg := m; metadata := None; path := ""; body := "";
                requestedModel := ""; model := ""; adapter := "" |} in
  match Unmarshal_payload J (Body m) with
  | inl err => (Some req, Some (fmt_Errorf "unmarshalling message as json: " err))
  | inr payload =>
      let path0 := payload_Path payload in
      let path1 :=
        if decide (payload_Path payload = "") then "/v1/completions"
        else if negb (HasPrefix_slash (payload_Path payload))
             then "/" +:+ payload_Path payload
             else path0 in
      match Unmarshal_map J (payload_Body payload) with
      | inl err => (None, Some (fmt_Errorf "decoding: " err))
      | inr payloadBody =>
          match payloadBody !! "model" with
          | None => (None, Some (errors_New "missing '.body.model' field"))
          | Some (JString modelStr) =>
              let '(model1, adapter1) := Apiutils.SplitModelAdapter modelStr in
              if decide (adapter1 <> "") then
                let payloadBody := <["model" := JString adapter1]> payloadBody in
                match Marshal_map J payloadBody with
                | inl err => (None, Some (fmt_Errorf "remarshalling: " err))
                | inr rewrittenBody =>
                    (Some {| msg := m; metadata := payload_Metadata payload;
                             path := path1; body := rewrittenBody;
                             requestedModel := modelStr;
                             model := model1; adapter := adapter1 |}, None)
                end
              else
                (Some {| msg := m; metadata := payload_Metadata payload;
                         path := path1; body := payload_Body payload;
                         requestedModel := modelStr;
                         model := model1; adapter := adapter1 |}, None)
          | Some _ =>
              (None, Some (errors_New "field '.body.model' should be a string"))
          end
      end
  end.

(** The collaborators of one message handler. *)
Record Env : Type := {
  LookupModel : string -> string -> bool * option error;
  ScaleAtLeastOneReplica : string -> option error;
  AwaitBestAddress : Modelproxy.AddressRequest -> string * option error;
  (* http.NewRequestWithContext *)
  NewRequest : string -> option error;
  (* m.HTTPC.Do: no response, or a status and the outcome of io.ReadAll *)
  HTTPC_Do : string -> string -> error + (Z * (error + string));
  (* m.responses.Send *)
  Send : option string -> string -> option error
}.

Inductive event : Type :=
| MetricAdd (requested : string) (delta : Z)
| ScaleRequested (requested : string)
| BackendPost (url : string) (sent : string)
| Complete
| Publish (resp : response) (encoded : option string) (request_message_id : string)
| Ack (message_id : string)
| Nack (message_id : string).

(** The shared counter of the [Messenger] and the log of a handler. *)
Record state : Type := {
  consecutiveErrors : Z;
  log : list event
}.

Definition emit (e : event) (st : state) : state :=
  {| consecutiveErrors := consecutiveErrors st; log := e :: log st |}.

Definition addConsecutiveError (st : state) : state :=
  {| consecutiveErrors := GoInt.incr (consecutiveErrors st); log := log st |}.

Definition resetConsecutiveErrors (st : state) : state :=
  {| consecutiveErrors := 0; log := log st |}.

Definition getConsecutiveErrors (st : state) : Z := consecutiveErrors st.

(** A handler returns, or panics (nil pointer dereference). *)
Inductive outcome : Type :=
| Returned (st : state)
| Panicked (st : state).

(** Deferred calls run on return and while panicking. *)
Definition deferred (f : state -> state) (o : outcome) : outcome :=
  match o with
  | Returned st => Returned (f st)
  | Panicked st => Panicked (f st)
  end.

Definition final (o : outcome) : state :=
  match o with Returned st | Panicked st => st end.

Definition nl : string := String "010"%char EmptyString.
Definition tab : string := String "009"%char EmptyString.
Definition dquote : string := String "034"%char EmptyString.

(** The body [jsonError] builds around the quoted message. *)
Definition error_body (J : Json) (message : string) : string :=
  "{" +:+ nl +:+ tab +:+ dquote +:+ "error" +:+ dquote +:+ ": {" +:+ nl
      +:+ tab +:+ tab +:+ dquote +:+ "message" +:+ dquote +:+ ": "
      +:+ Quote J message +:+ nl +:+ tab +:+ "}" +:+ nl +:+ "}".

(** [Messenger.jsonError]; [message] is the formatted text. *)
Definition jsonError (J : Json) (message : string) (st : state) : string * state :=
  let st := addConsecutiveError st in
  (error_body J message, st).

(** [Messenger.sendResponse] *)
Definition sendResponse (J : Json) (env : Env) (req : option request)
    (body : string) (statusCode : Z) (st : state) : outcome :=
  match req with
  | None => Panicked st            (* req.msg.LoggableID on a nil req *)
  | Some req =>
      let resp := {| response_Metadata := metadata req;
                     response_StatusCode := statusCode;
                     response_Body := body |} in
      let '(jsonResponse, st) :=
        match Marshal_response J resp with
        | inl err => (None, addConsecutiveError st)
        | inr encoded => (Some encoded, st)
        end in
      let st := emit (Publish resp jsonResponse (LoggableID (msg req))) st in
      match Send env jsonResponse (LoggableID (msg req)) with
      | Some err =>
          let st := addConsecutiveError st in
          let st := if Nackable (msg req)
                    then emit (Nack (LoggableID (msg req))) st else st in
          Returned st
      | None =>
          let st := if statusCode <? 300 then resetConsecutiveErrors st else st in
          Returned (emit (Ack (LoggableID (msg req))) st)
      end
  end.

(** [Messenger.sendBackendRequest] *)
Definition sendBackendRequest (env : Env) (url : string) (body : string)
    : string * Z * option error :=
  match NewRequest env url with
  | Some err => ("", 0, Some err)
  | None =>
      match HTTPC_Do env url body with
      | inl err => ("", 0, Some err)
      | inr (code, inl err) => ("", 0, Some err)
      | inr (code, inr payload) => (payload, code, None)
      end
  end.

(** [Messenger.handleRequest].  The arguments of a call are evaluated
    before the call: [jsonError] counts its error before [sendResponse]
    runs. *)
Definition handleRequest (J : Json) (env : Env) (m : Message) (st : state)
    : outcome :=
  let '(req, err) := parseRequest J m in
  match err with
  | Some err =>
      let '(b, st) := jsonError J ("error parsing request: " +:+ Error err) st in
      sendResponse J env req b StatusBadRequest st
  | None =>
      match req with
      | None => Panicked st
      | Some r =>
          let st := emit (MetricAdd (model r) 1) st in
          deferred (emit (MetricAdd (model r) (-1)))
            (let '(modelExists, err) := LookupModel env (model r) (adapter r) in
             match err with
             | Some err =>
                 let '(b, st) :=
                   jsonError J ("error checking if model exists: " +:+ Error err) st in
                 sendResponse J env req b StatusInternalServerError st
             | None =>
                 if negb modelExists then
                   let '(b, st) := jsonError J ("model not found: " +:+ model r) st in
                   sendResponse J env req b StatusNotFound st
                 else
                   let st := emit (ScaleRequested (model r)) st in
                   let '(host, err) :=
                     AwaitBestAddress env
                       {| Modelproxy.Model := model r;
                          Modelproxy.Adapter := adapter r |} in
                   match err with
                   | Some err =>
                       let '(b, st) :=
                         jsonError J ("error awaiting host for backend: "
                                        +:+ Error err) st in
                       sendResponse J env req b StatusBadGateway st
                   | None =>
                       deferred (emit Complete)
                         (let url := "http://" +:+ host +:+ path r in
                          let st := emit (BackendPost url (body r)) st in
                          let '(respPayload, respCode, err) :=
                            sendBackendRequest env url (body r) in
                          match err with
                          | Some err =>
                              let '(b, st) :=
                                jsonError J ("error sending request to backend: "
                                               +:+ Error err) st in
                              sendResponse J env req b StatusBadGateway st
                          | None => sendResponse J env req respPayload respCode st
                          end)
                   end
             end)
      end
  end.

(** *** The receive loop *)

Record Config : Type := {
  MaxHandlers : Z;
  ErrorMaxBackoff : Z;             (* time.Duration *)
  requestsURL : string
}.

Definition maxRestartAttempts : Z := 20.
Definition maxRestartBackoff : Z := 10 * Second.

Definition consecutiveErrBackoff (n : Z) (max : Z) : Z :=
  let d := GoInt.mul n Second in
  if d >? max then max else d.

(** What one turn of the loop meets: the outcome of [Receive] and, as far
    as the turn gets there, of the calls after it.  Handlers run in their
    own goroutines, so the value [getConsecutiveErrors] reads after a
    dispatch is whatever the counter holds at that instant: it is part of
    the schedule. *)
Inductive turn : Type :=
| ReceiveFails (err : error) (shutdownErr : option error) (subErr : option error)
| ReceiveMessage (m : Message) (ctxDone : bool) (errorsSeen : Z).

Inductive loop_event : Type :=
| Shutdown
| Sleep (d : Z)
| OpenSubscription (url : string)
| Dispatch (m : Message)
| Drain (slots : Z).

(** [Start] has returned, or is still in the receive loop when the
    schedule ends. *)
Inductive start_result : Type :=
| Exited (err : option error)
| Receiving (restartAttempt : Z).

Fixpoint recvLoop (cfg : Config) (schedule : list turn) (restartAttempt : Z)
    (trace : list loop_event) : start_result * list loop_event :=
  match schedule with
  | [] => (Receiving restartAttempt, trace)
  | ReceiveFails err shutdownErr subErr :: schedule =>
      if errors_Is err IsCanceled then (Exited (Some err), trace)
      else if restartAttempt >? maxRestartAttempts then (Exited (Some err), trace)
      else
        let trace := Shutdown :: trace in
        let restartWait :=
          Z.min (GoInt.mul restartAttempt Second) maxRestartBackoff in
        let trace := Sleep restartWait :: trace in
        let trace := OpenSubscription (requestsURL cfg) :: trace in
        match subErr with
        | Some subErr => (Exited (Some subErr), trace)
        | None => recvLoop cfg schedule (GoInt.incr restartAttempt) trace
        end
  | ReceiveMessage m ctxDone errorsSeen :: schedule =>
      let restartAttempt := 0 in
      if ctxDone then (Exited None, Drain (MaxHandlers cfg) :: trace)
      else
        let trace := Dispatch m :: trace in
        let trace :=
          if errorsSeen >? 0
          then Sleep (consecutiveErrBackoff errorsSeen (ErrorMaxBackoff cfg)) :: trace
          else trace in
        recvLoop cfg schedule restartAttempt trace
  end.

(** [Messenger.Start]: the result and the events, oldest first. *)
Definition Start (cfg : Config) (schedule : list turn)
    : start_result * list loop_event :=
  let '(r, trace) := recvLoop cfg schedule 0 [] in (r, rev trace).

Definition is_restart (e : loop_event) : bool :=
  match e with OpenSubscription _ => true | _ => false end.

(** How often the subscription was recreated. *)
Definition restarts (trace : list loop_event) : nat :=
  length (filter (fun e => is_restart e = true) trace).

(** *** Observations on a handler log *)

Definition as_published (e : event) : option response :=
  match e with
  | Publish resp _ _ => Some resp
  | _ => None
  end.

Definition as_delivery (e : event) : option event :=
  match e with
  | Publish _ _ _ | Ack _ | Nack _ => Some e
  | _ => None
  end.

(** The responses handed to the topic, oldest first. *)
Definition published (l : list event) : list response :=
  omap as_published (rev l).

(** Publishing, acknowledging and rejecting, in the order they happened. *)
Definition delivery (l : list event) : list event :=
  omap as_delivery (rev l).

(** What the topic is handed for a response, and the counter after the
    attempt to marshal it. *)
Definition encoded (J : Json) (resp : response) : option string :=
  match Marshal_response J resp with
  | inl _ => None
  | inr text => Some text
  end.

Definition after_marshal (J : Json) (resp : response) (c : Z) : Z :=
  match Marshal_response J resp with
  | inl _ => GoInt.incr c
  | inr _ => c
  end.

(** How the response to message [m] is settled between two states, given
    the counter [c] with which [sendResponse] is entered: it is published
    once; if the topic takes it, Ack follows and a status below 300 resets
    the counter; if not, an error is counted and Nack follows, when the
    message can be nacked, and no Ack. *)
Definition settled (J : Json) (env : Env) (m : Message) (resp : response)
    (c : Z) (before after : state) : Prop :=
  let mid := LoggableID m in
  published (log after) = published (log before) ++ [resp] /\
  match Send env (encoded J resp) mid with
  | None =>
      delivery (log after)
      = delivery (log before) ++ [Publish resp (encoded J resp) mid; Ack mid] /\
      consecutiveErrors after =
        (if response_StatusCode resp <? 300 then 0 else after_marshal J resp c)
  | Some _ =>
      delivery (log after)
      = delivery (log before)
          ++ Publish resp (encoded J resp) mid
             :: (if Nackable m then [Nack mid] else []) /\
      consecutiveErrors after = GoInt.incr (after_marshal J resp c)
  end.


End Messenger.

(** ** Scenarios *)

Module Scenario.

(** A text in double quotes, and the JSON body that names model m1. *)
Definition q (s : string) : string :=
  Messenger.dquote +:+ s +:+ Messenger.dquote.

Definition body_m1 : string := "{" +:+ q "model" +:+ ":" +:+ q "m1" +:+ "}".

(** *** HTTP handler *)

Definition h3 : Modelproxy.Handler :=
  {| Modelproxy.maxRetries := 3; Modelproxy.retryCodes := None |}.

Definition parsed_m1 : Modelproxy.parsed :=
  {| Modelproxy.p_requestedModel := "m1"; Modelproxy.p_model := "m1";
     Modelproxy.p_adapter := ""; Modelproxy.p_selectors := [];
     Modelproxy.p_body := body_m1 |}.


(** One replica that closes the connection on every request. *)
Definition dropped_connection : Modelproxy.Env :=
  {| Modelproxy.parse := inr parsed_m1;
     Modelproxy.LookupModel := fun _ _ _ => (true, None);
     Modelproxy.ScaleAtLeastOneReplica := fun _ => None;
     Modelproxy.AwaitBestAddress := fun _ _ => ("10.0.0.1:8000", None);
     Modelproxy.RoundTrip := fun _ _ _ => inr (errors_New "EOF");
     Modelproxy.ctxErr := fun _ => None |}.

(** *** Messenger *)

(** The message texts of the scenarios: a body without a model, a body
    with a plain model, and a body with model and adapter and a path
    without its leading slash. *)
Definition body_empty : string := "{}".
Definition body_m3_a3 : string := "{" +:+ q "model" +:+ ":" +:+ q "m3_a3" +:+ "}".
Definition body_a3 : string := "{" +:+ q "model" +:+ ":" +:+ q "a3" +:+ "}".

Definition text_no_model : string := "{" +:+ q "body" +:+ ":" +:+ body_empty +:+ "}".
Definition text_m1 : string := "{" +:+ q "body" +:+ ":" +:+ body_m1 +:+ "}".
Definition text_m3_a3 : string :=
  "{" +:+ q "path" +:+ ":" +:+ q "v1/chat/completions" +:+ ","
      +:+ q "body" +:+ ":" +:+ body_m3_a3 +:+ "}".

(** [encoding/json] on the texts of the scenarios; every other text is
    rejected. *)
Definition J0 : Messenger.Json :=
  {| Messenger.Unmarshal_payload := fun s =>
       if String.eqb s text_no_model then
         inr {| Messenger.payload_Metadata := None;
                Messenger.payload_Path := "";
                Messenger.payload_Body := body_empty |}
       else if String.eqb s text_m1 then
         inr {| Messenger.payload_Metadata := None;
                Messenger.payload_Path := "";
                Messenger.payload_Body := body_m1 |}
       else if String.eqb s text_m3_a3 then
         inr {| Messenger.payload_Metadata := None;
                Messenger.payload_Path := "v1/chat/completions";
                Messenger.payload_Body := body_m3_a3 |}
       else inl (errors_New "invalid character");
     Messenger.Unmarshal_map := fun s =>
       if String.eqb s body_empty then inr ∅
       else if String.eqb s body_m1 then
         inr {[ "model" := Messenger.JString "m1" ]}
       else if String.eqb s body_m3_a3 then
         inr {[ "model" := Messenger.JString "m3_a3" ]}
       else inl (errors_New "unexpected end of JSON input");
     Messenger.Marshal_map := fun fields =>
       match fields !! "model" with
       | Some (Messenger.JString s) =>
           inr ("{" +:+ q "model" +:+ ":" +:+ q s +:+ "}")
       | _ => inl (errors_New "unsupported value")
       end;
     Messenger.Marshal_response := fun resp =>
       inr ("{" +:+ q "metadata" +:+ ":null," +:+ q "status_code" +:+ ":"
                +:+ pretty (Messenger.response_StatusCode resp) +:+ ","
                +:+ q "body" +:+ ":" +:+ Messenger.response_Body resp +:+ "}");
     Messenger.Quote := q |}.

Definition message (text : string) : Messenger.Message :=
  {| Messenger.LoggableID := "msg-1"; Messenger.Body := text;
     Messenger.Nackable := true |}.

Definition backend_payload : string :=
  "{" +:+ q "detail" +:+ ":" +:+ q "boom" +:+ "}".

(** A backend that answers every request with [code] and
    [backend_payload]; the topic accepts every response. *)
Definition backend_answers (code : Z) : Messenger.Env :=
  {| Messenger.LookupModel := fun _ _ => (true, None);
     Messenger.ScaleAtLeastOneReplica := fun _ => None;
     Messenger.AwaitBestAddress := fun _ => ("10.0.0.1:8000", None);
     Messenger.NewRequest := fun _ => None;
     Messenger.HTTPC_Do := fun _ _ => inr (code, inr backend_payload);
     Messenger.Send := fun _ _ => None |}.

Definition idle : Messenger.state :=
  {| Messenger.consecutiveErrors := 0; Messenger.log := [] |}.

Definition cfg0 : Messenger.Config :=
  {| Messenger.MaxHandlers := 4;
     Messenger.ErrorMaxBackoff := 30 * Messenger.Second;
     Messenger.requestsURL := "mem://requests" |}.

(** A [Receive] error that is not a cancellation; the subscription can be
    opened again. *)
Definition receive_fails : Messenger.turn :=
  Messenger.ReceiveFails (errors_New "connection reset") None None.

End Scenario.

(** ** Further observations on the handler's log *)

Module HandlerLog.

Definition as_metric (e : Modelproxy.event) : option (string * Z) :=
  match e with
  | Modelproxy.MetricAdd requested delta => Some (requested, delta)
  | _ => None
  end.


(** The changes of the gauge of active requests, oldest first. *)
Definition metrics : list Modelproxy.event -> list (string * Z) :=
  Modelproxy.chronicle as_metric.


(** An observation that looks at headers and metrics only, the two kinds
    of event that [proxyHTTP] does not log. *)
Definition outside_proxy {A} (pick : Modelproxy.event -> option A) : Prop :=
  forall e,
    match e with
    | Modelproxy.SetHeader _ _ | Modelproxy.MetricAdd _ _ => True
    | _ => pick e = None
    end.

(** What the client is sent for the outcome of the last backend request
    of a run that is not retried. *)
Definition final_answer (h : Modelproxy.Handler) (outcome : Z + error)
    (attempts : Z) : list Modelproxy.event :=
  match outcome with
  | inl code => [Modelproxy.CopyResponse code]
  | inr err =>
      if errors_Is err IsErrRetry then []
      else [Modelproxy.SendErrorResponse Modelproxy.StatusBadGateway
              "proxy: exceeded retries: %v/%v"
              [pretty attempts; pretty (Modelproxy.maxRetries h)]]
  end.

End HandlerLog.

(** ** The collaborators of the handler test *)

Module HandlerTest.

(** [testMockModel]: the adapters map may be nil. *)
Record testMockModel : Type := {
  adapters : option (gmap string bool)
}.

(** [testModelInterface], without the fields that only record calls. *)
Record testModelInterface : Type := {
  address : string;
  models : gmap string testMockModel
}.

(** [testModelInterface.LookupModel] *)
Definition LookupModel (t : testModelInterface) (model adapter : string)
    (selector : list string) : bool * option error :=
  match models t !! model with
  | Some m =>
      if decide (adapter = "") then (true, None)
      else match adapters m with
           | None => (false, None)
           | Some known => (default false (known !! adapter), None)
           end
  | None => (false, None)
  end.

(** [testModelInterface.ScaleAtLeastOneReplica] *)
Definition ScaleAtLeastOneReplica (t : testModelInterface) (model : string)
    : option error := None.

(** [testModelInterface.AwaitBestAddress]; the count of the calls is the
    [lbCalls] of the handler state. *)
Definition AwaitBestAddress (t : testModelInterface) (call : nat)
    (req : Modelproxy.AddressRequest) : string * option error :=
  (address t, None).

(** The handler of the test: the mock as model client and load balancer,
    in front of a backend and a request context. *)
Definition env (t : testModelInterface) (parsed : error + Modelproxy.parsed)
    (backend : nat -> string -> string -> Z + error)
    (ctx : nat -> option error) : Modelproxy.Env :=
  {| Modelproxy.parse := parsed;
     Modelproxy.LookupModel := LookupModel t;
     Modelproxy.ScaleAtLeastOneReplica := ScaleAtLeastOneReplica t;
     Modelproxy.AwaitBestAddress := AwaitBestAddress t;
     Modelproxy.RoundTrip := backend;
     Modelproxy.ctxErr := ctx |}.

(** The models of [TestHandler]. *)
Definition test_models : gmap string testMockModel :=
  {[ "model1" := {| adapters := None |};
     "model2" := {| adapters := None |};
     "model3" := {| adapters := Some {[ "adapter3" := true ]} |} ]}.

(** The mock in front of the models of the test, a request for
    "model1", and a backend that gives the same answer every time. *)
Definition mock : testModelInterface :=
  {| address := "127.0.0.1:8000"; models := test_models |}.

Definition request_model1 : Modelproxy.parsed :=
  {| Modelproxy.p_requestedModel := "model1"; Modelproxy.p_model := "model1";
     Modelproxy.p_adapter := ""; Modelproxy.p_selectors := [];
     Modelproxy.p_body :=
       "{" +:+ Scenario.q "model" +:+ ":" +:+ Scenario.q "model1" +:+ "}" |}.

Definition backend_answers (code : Z) : nat -> string -> string -> Z + error :=
  fun _ _ _ => inl code.

Definition alive : nat -> option error := fun _ => None.

Definition cancelled : nat -> option error := fun _ => Some context_Canceled.

Definition h0 : Modelproxy.Handler :=
  {| Modelproxy.maxRetries := 0; Modelproxy.retryCodes := None |}.

End HandlerTest.

(** ** Further observations on the messenger *)

Module MessengerLog.


Definition as_complete (e : Messenger.event) : option unit :=
  match e with
  | Messenger.Complete => Some tt
  | _ => None
  end.

Definition as_metric (e : Messenger.event) : option (string * Z) :=
  match e with
  | Messenger.MetricAdd requested delta => Some (requested, delta)
  | _ => None
  end.


(** The calls of the completion callback. *)
Definition completes (l : list Messenger.event) : list unit :=
  omap as_complete (rev l).

(** The changes of the gauge of active requests. *)
Definition metrics (l : list Messenger.event) : list (string * Z) :=
  omap as_metric (rev l).

(** An observation that does not look at publishing, Ack and Nack. *)
Definition beside_delivery {A} (pick : Messenger.event -> option A) : Prop :=
  forall e,
    match e with
    | Messenger.Publish _ _ _ | Messenger.Ack _ | Messenger.Nack _ =>
        pick e = None
    | _ => True
    end.

(** What an observation makes of one event. *)
Definition picked {A} (pick : Messenger.event -> option A)
    (e : Messenger.event) : list A :=
  match pick e with Some a => [a] | None => [] end.

(** The message was parsed, its model is known and a backend address was
    handed out for it. *)
Definition routed (J : Messenger.Json) (env : Messenger.Env)
    (m : Messenger.Message) (r : Messenger.request) (host : string) : Prop :=
  Messenger.parseRequest J m = (Some r, None) /\
  Messenger.LookupModel env (Messenger.model r) (Messenger.adapter r)
  = (true, None) /\
  Messenger.AwaitBestAddress env
    {| Modelproxy.Model := Messenger.model r;
       Modelproxy.Adapter := Messenger.adapter r |}
  = (host, None).

(** *** The trace of the receive loop *)

Definition as_dispatch (e : Messenger.loop_event) : option Messenger.Message :=
  match e with
  | Messenger.Dispatch m => Some m
  | _ => None
  end.

Definition as_sleep (e : Messenger.loop_event) : option Z :=
  match e with
  | Messenger.Sleep d => Some d
  | _ => None
  end.

Definition as_received (t : Messenger.turn) : option Messenger.Message :=
  match t with
  | Messenger.ReceiveMessage m _ _ => Some m
  | Messenger.ReceiveFails _ _ _ => None
  end.

(** The messages handed to a handler, in the order of the trace. *)
Definition dispatched (trace : list Messenger.loop_event)
    : list Messenger.Message := omap as_dispatch trace.

(** The durations slept. *)
Definition sleeps (trace : list Messenger.loop_event) : list Z :=
  omap as_sleep trace.

(** The messages a schedule delivers. *)
Definition received (schedule : list Messenger.turn) : list Messenger.Message :=
  omap as_received schedule.

Definition is_failure (t : Messenger.turn) : bool :=
  match t with
  | Messenger.ReceiveFails _ _ _ => true
  | Messenger.ReceiveMessage _ _ _ => false
  end.


(** A streak of failures of [Receive] that are no cancellations and after
    each of which the subscription can be recreated. *)
Definition failures (err : error) (n : nat) : list Messenger.turn :=
  repeat (Messenger.ReceiveFails err None None) n.

(** [rounds] times: twenty-one such failures, then a message. *)
Fixpoint flaky (err : error) (m : Messenger.Message) (rounds : nat)
    : list Messenger.turn :=
  match rounds with
  | O => []
  | S rounds =>
      failures err 21 ++ Messenger.ReceiveMessage m false 0 :: flaky err m rounds
  end.

End MessengerLog.

(** * Part II: theorems *)

(** ** Machine integers *)

Lemma wrap64_id z : GoInt.in_range z -> GoInt.wrap64 z = z.
Proof.
  unfold GoInt.in_range, GoInt.min_int, GoInt.max_int, GoInt.wrap64. intros Hz.
  rewrite Z.mod_small; lia.
Qed.

Lemma incr_no_overflow n :
  GoInt.min_int <= n < GoInt.max_int -> GoInt.incr n = n + 1.
Proof.
  intros Hn. unfold GoInt.incr. apply wrap64_id.
  unfold GoInt.in_range, GoInt.min_int, GoInt.max_int in *. lia.
Qed.

Lemma errors_Is_exclusive err :
  errors_Is err IsCanceled = true -> errors_Is err IsDeadlineExceeded = false.
Proof. induction err; simpl; auto; discriminate. Qed.
(** ** apiutils *)

Section ApiutilsFacts.
Import Apiutils.

Lemma strings_Cut_app sep m rest :
  contains sep m = false ->
  strings_Cut sep (m +:+ String sep rest) = Some (m, rest).
Proof.
  induction m as [|c m IH]; simpl.
  - intros _. by rewrite Ascii.eqb_refl.
  - intros H. apply orb_false_iff in H as [Hc Hm].
    rewrite Hc. by rewrite (IH Hm).
Qed.

Lemma strings_Cut_none sep m :
  contains sep m = false -> strings_Cut sep m = None.
Proof.
  induction m as [|c m IH]; simpl; [done|].
  intros H. apply orb_false_iff in H as [Hc Hm].
  rewrite Hc. by rewrite (IH Hm).
Qed.

(** Merging is not injective on non-empty strings, so no splitting
    function at all undoes it on all of them. *)
Lemma no_split_inverts_merge (split : string -> string * string) :
  ~ (forall m a : string,
        m <> "" -> a <> "" -> split (MergeModelAdapter m a) = (m, a)).
Proof.
  intros H.
  pose proof (H "a_b" "c" ltac:(done) ltac:(done)) as H1.
  pose proof (H "a" "b_c" ltac:(done) ltac:(done)) as H2.
  change (MergeModelAdapter "a_b" "c") with (MergeModelAdapter "a" "b_c") in H1.
  congruence.
Qed.

(** C10, as the spec states it: splitting a merged name gives back model
    and adapter for all non-empty strings.  It fails for the model name
    "my_model": the split is at the first delimiter. *)
Lemma Split_Merge_delimiter_in_model :
  ("my_model" <> "" /\ "a" <> "" /\
   SplitModelAdapter (MergeModelAdapter "my_model" "a") = ("my", "model_a")) /\
  ~ (forall m a : string,
        m <> "" -> a <> "" ->
        SplitModelAdapter (MergeModelAdapter m a) = (m, a)).
Proof.
  split; [by split_and!|].
  intros H. by specialize (H "my_model" "a" ltac:(done) ltac:(done)).
Qed.

(** C10, amended: for every model name without the delimiter and every
    adapter, splitting the merged name gives back the model and the
    adapter. *)
Theorem Split_Merge_roundtrip (m a : string) :
  contains adapterSeparator m = false ->
  SplitModelAdapter (MergeModelAdapter m a) = (m, a).
Proof.
  intros Hm. unfold SplitModelAdapter, MergeModelAdapter.
  destruct (decide (a = "")) as [->|Ha].
  - by rewrite strings_Cut_none.
  - by rewrite strings_Cut_app.
Qed.

(** The names of the handler test. *)
Lemma Split_Merge_roundtrip_witness :
  contains adapterSeparator "model3" = false /\
  SplitModelAdapter (MergeModelAdapter "model3" "adapter3")
  = ("model3", "adapter3").
Proof.
  split; [reflexivity | apply (Split_Merge_roundtrip "model3" "adapter3"); reflexivity].
Defined.

End ApiutilsFacts.

(** ** The HTTP handler *)

Section HandlerFacts.
Import Modelproxy.
Variables (h : Handler) (env : Env).

Lemma chronicle_cons {A} (pick : event -> option A) e l :
  chronicle pick (e :: l) =
  chronicle pick l ++ match pick e with Some a => [a] | None => [] end.
Proof.
  unfold chronicle. simpl. rewrite omap_app. simpl.
  by destruct (pick e).
Qed.

Lemma chronicle_app {A} (pick : event -> option A) l1 l2 :
  chronicle pick (l1 ++ l2) = chronicle pick l2 ++ chronicle pick l1.
Proof. unfold chronicle. by rewrite rev_app_distr, omap_app. Qed.

Lemma ErrorHandler_after_error retry err st :
  ErrorHandler h env retry err st =
  match after_error h env err st with
  | Stop s => Some s
  | Again s => retry s
  end.
Proof.
  unfold after_error, ErrorHandler.
  destruct (not_nil err && negb (not_nil (ctxErr env (backendReqs st)))
            && (attempt (pr st) <? maxRetries h)); [done|].
  by destruct (negb (errors_Is_opt err IsErrRetry)).
Qed.

Lemma ReverseProxy_attempt_once retry addr st :
  ReverseProxy_ServeHTTP env addr (ModifyResponse h) (ErrorHandler h env retry) st =
  match attempt_once h env addr st with
  | Stop s => Some s
  | Again s => retry s
  end.
Proof.
  unfold ReverseProxy_ServeHTTP, attempt_once.
  destruct (RoundTrip env _ _ _) as [code|err].
  - destruct (ModifyResponse h code _) as [[err|] st1]; [|done].
    apply ErrorHandler_after_error.
  - apply ErrorHandler_after_error.
Qed.

Lemma proxyHTTP_unfold fuel st :
  proxyHTTP (S fuel) h env st =
  match AwaitBestAddress env (lbCalls st) (address_request st) with
  | (addr, Some err) => Some (no_host err (awaited st))
  | (addr, None) =>
      match attempt_once h env addr (awaited st) with
      | Stop s => Some (emit (DecrementInflight (lbCalls st)) s)
      | Again s => option_map (emit (DecrementInflight (lbCalls st)))
                     (proxyHTTP fuel h env s)
      end
  end.
Proof.
  cbn [proxyHTTP]. fold (address_request st).
  destruct (AwaitBestAddress env _ _) as [addr [err|]].
  - fold (awaited st). unfold no_host.
    destruct (errors_Is err IsCanceled); [done|].
    by destruct (errors_Is err IsDeadlineExceeded).
  - fold (awaited st). rewrite ReverseProxy_attempt_once.
    destruct (attempt_once h env addr (awaited st)) as [s|s]; [done|].
    by destruct (proxyHTTP fuel h env s).
Qed.

Lemma proxyHTTP_Run fuel : forall st st',
  proxyHTTP fuel h env st = Some st' -> Run h env st st'.
Proof.
  induction fuel as [|fuel IH]; intros st st' Hrun; [discriminate|].
  rewrite proxyHTTP_unfold in Hrun.
  destruct (AwaitBestAddress env _ _) as [addr [err|]] eqn:Hlb.
  - inversion Hrun; subst. by eapply Run_no_host.
  - destruct (attempt_once h env addr (awaited st)) as [s|s] eqn:Hatt.
    + inversion Hrun; subst. by eapply Run_stop.
    + destruct (proxyHTTP fuel h env s) as [s'|] eqn:Hrec; [|discriminate].
      inversion Hrun; subst. eapply Run_again; eauto.
Qed.

(** Case analysis on everything one backend attempt depends on. *)
Ltac attempt_cases st :=
  unfold attempt_once, after_error, ErrorHandler, ModifyResponse;
  let Hb := fresh "Hb" in
  let Hlt := fresh "Hlt" in
  let Hctx := fresh "Hctx" in
  destruct (attempt (pr st) <? maxRetries h) eqn:Hb;
  pose proof Hb as Hlt;
  first [apply Z.ltb_lt in Hlt | apply Z.ltb_ge in Hlt];
  destruct (RoundTrip env _ _ _) as [?code|?err];
  try destruct (isRetryCode h _) eqn:?Hcode;
  destruct (ctxErr env (S (backendReqs st))) eqn:Hctx;
  repeat (progress (cbn -[Z.ltb]; rewrite ?Hb, ?Hctx));
  try (destruct (errors_Is _ IsErrRetry) eqn:?Hretry; cbn -[Z.ltb]);
  intros; simplify_eq.

(** What an attempt that leads to a retry has done. *)
Lemma attempt_once_Again addr st st' :
  attempt_once h env addr st = Again st' ->
  attempt (pr st) < maxRetries h /\
  ctxErr env (S (backendReqs st)) = None /\
  attempt (pr st') = GoInt.incr (attempt (pr st)) /\
  body (pr st') = body (pr st) /\
  address_request st' = address_request st /\
  lbCalls st' = lbCalls st /\
  backendReqs st' = S (backendReqs st) /\
  log st' = AttemptIncremented (attempt (pr st'))
              :: BackendRequest addr (body (pr st)) :: log st.
Proof. attempt_cases st; done. Qed.

(** What the last attempt of a run has done, and why it was the last. *)
Lemma attempt_once_Stop addr st st' :
  attempt_once h env addr st = Stop st' ->
  attempt (pr st') = attempt (pr st) /\
  body (pr st') = body (pr st) /\
  address_request st' = address_request st /\
  lbCalls st' = lbCalls st /\
  backendReqs st' = S (backendReqs st) /\
  exists answer,
    log st' = answer ++ BackendRequest addr (body (pr st)) :: log st /\
    match RoundTrip env (backendReqs st) addr (body (pr st)) with
    | inl code =>
        (answer = [CopyResponse code] /\
         (isRetryCode h code = false \/ maxRetries h <= attempt (pr st))) \/
        (answer = [] /\ ctxErr env (S (backendReqs st)) <> None)
    | inr err =>
        (ctxErr env (S (backendReqs st)) <> None \/
         maxRetries h <= attempt (pr st)) /\
        answer =
          if errors_Is err IsErrRetry then []
          else [SendErrorResponse StatusBadGateway "proxy: exceeded retries: %v/%v"
                  [pretty (attempt (pr st)); pretty (maxRetries h)]]
    end.
Proof.
  attempt_cases st; split_and!; try done;
    first [ exists []; split; [reflexivity|]; naive_solver
          | eexists [_]; split; [reflexivity|]; naive_solver ].
Qed.

Lemma chronicle_completions_map l :
  completions (map DecrementInflight l) = rev l.
Proof.
  unfold completions, chronicle. rewrite <- map_rev.
  induction (rev l) as [|c cs IH]; [done|]. cbn. by f_equal.
Qed.

Lemma chronicle_map_completion {A} (pick : event -> option A) l :
  (forall c, pick (DecrementInflight c) = None) ->
  chronicle pick (map DecrementInflight l) = [].
Proof.
  intros Hpick. unfold chronicle. rewrite <- map_rev.
  induction (rev l) as [|c cs IH]; [done|]. cbn. by rewrite Hpick.
Qed.

(** The log a run of [proxyHTTP] writes: the attempts in the middle, the
    completion callbacks on top of them, innermost first. *)
Lemma Run_log st st' :
  Run h env st st' ->
  body (pr st') = body (pr st) /\
  address_request st' = address_request st /\
  exists (n : nat) (mid : list event),
    backendReqs st' = (backendReqs st + n)%nat /\
    (lbCalls st + n <= lbCalls st' <= S (lbCalls st + n))%nat /\
    log st' = map DecrementInflight (seq (lbCalls st) n) ++ mid ++ log st /\
    completions mid = [] /\
    await_calls mid = seq (lbCalls st) (lbCalls st' - lbCalls st) /\
    backend_requests mid =
      map (fun k => (fst (AwaitBestAddress env k (address_request st)),
                     body (pr st)))
          (seq (lbCalls st) n) /\
    Forall (fun k => snd (AwaitBestAddress env k (address_request st)) = None)
           (seq (lbCalls st) n).
Proof.
  induction 1 as [st addr err Hlb | st addr s Hlb Hstop
                 | st addr s s' Hlb Hagain Hrun IH].
  - assert (Hst : exists e, no_host err (awaited st) = emit e (awaited st) /\
                            as_completion e = None /\ as_await_call e = None /\
                            as_backend_request e = None).
    { unfold no_host, sendErrorResponse.
      destruct (errors_Is err IsCanceled); [eauto|].
      destruct (errors_Is err IsDeadlineExceeded); eauto. }
    destruct Hst as (e & -> & Hc & Ha & Hb). simpl.
    split_and!; try done.
    exists 0%nat, [e; CallAwaitBestAddress (lbCalls st) (address_request st)].
    split_and!; try done; try lia.
    + unfold completions. rewrite !chronicle_cons, Hc. done.
    + unfold await_calls. rewrite !chronicle_cons, Ha. simpl.
      replace (S (lbCalls st) - lbCalls st)%nat with 1%nat by lia. done.
    + unfold backend_requests. rewrite !chronicle_cons, Hb. done.
  - apply attempt_once_Stop in Hstop
      as (Hatt & Hbody & Hreq & Hcalls & Hreqs & answer & Hlog & Hwhy).
    simpl in *. split_and!; try done.
    exists 1%nat,
      (answer ++ [BackendRequest addr (body (pr st));
                  CallAwaitBestAddress (lbCalls st) (address_request st)]).
    assert (Hanswer : answer = [] \/ exists e, answer = [e] /\
              as_completion e = None /\ as_await_call e = None /\
              as_backend_request e = None).
    { destruct (RoundTrip env _ _ _) as [code|e].
      - destruct Hwhy as [[-> _]|[-> _]]; eauto 10.
      - destruct Hwhy as [_ ->]. destruct (errors_Is e IsErrRetry); eauto 10. }
    rewrite Hreqs, Hcalls. split_and!; try lia.
    + rewrite Hlog. simpl. by rewrite <- app_assoc.
    + unfold completions. rewrite chronicle_app.
      destruct Hanswer as [->|(e & -> & Hc & _)]; [done|].
      by rewrite !chronicle_cons, Hc.
    + unfold await_calls. rewrite chronicle_app.
      replace (S (lbCalls st) - lbCalls st)%nat with 1%nat by lia.
      destruct Hanswer as [->|(e & -> & _ & Ha & _)]; [done|].
      by rewrite !chronicle_cons, Ha.
    + unfold backend_requests. rewrite chronicle_app. simpl.
      rewrite Hlb. simpl.
      destruct Hanswer as [->|(e & -> & _ & _ & Hb)]; [done|].
      by rewrite !chronicle_cons, Hb.
    + repeat constructor. by rewrite Hlb.
  - apply attempt_once_Again in Hagain
      as (Hlt & Hctx & Hatt & Hbody & Hreq & Hcalls & Hreqs & Hlog).
    destruct IH as (IHbody & IHreq & n & mid & IHreqs & IHcalls & IHlog
                    & IHc & IHa & IHb & IHok).
    simpl in *. change (address_request (awaited st)) with (address_request st) in *.
    rewrite Hreq, Hbody, Hcalls in *.
    split_and!; [done | exact IHreq |].
    exists (S n),
      (mid ++ [AttemptIncremented (attempt (pr s));
               BackendRequest addr (body (pr st));
               CallAwaitBestAddress (lbCalls st) (address_request st)]).
    split_and!; try lia.
    + rewrite IHlog, Hlog. simpl. by rewrite <- !app_assoc.
    + unfold completions in *. by rewrite chronicle_app, IHc.
    + unfold await_calls in *. rewrite chronicle_app, IHa.
      replace (lbCalls s' - lbCalls st)%nat
        with (S (lbCalls s' - S (lbCalls st)))%nat by lia.
      done.
    + unfold backend_requests in *. rewrite chronicle_app, IHb. simpl.
      by rewrite Hlb.
    + simpl. constructor; [by rewrite Hlb|done].
Qed.

(** The retry counter along a run: it goes up one by one, never beyond
    [maxRetries], and once per backend request at most. *)
Lemma Run_attempt st st' :
  GoInt.in_range (maxRetries h) ->
  GoInt.min_int <= attempt (pr st) ->
  Run h env st st' ->
  exists k : nat,
    attempt (pr st') = attempt (pr st) + Z.of_nat k /\
    (k = 0%nat \/ attempt (pr st') <= maxRetries h) /\
    increments (log st') =
      increments (log st)
        ++ map (fun i => attempt (pr st) + Z.of_nat i) (seq 1 k) /\
    (backendReqs st + k <= backendReqs st' <= S (backendReqs st + k))%nat.
Proof.
  intros Hmax Hmin Hrun. revert Hmin.
  induction Hrun as [st addr err Hlb | st addr s Hlb Hstop
                    | st addr s s' Hlb Hagain Hrun IH]; intros Hmin.
  - exists 0%nat. unfold no_host, sendErrorResponse, increments.
    destruct (errors_Is err IsCanceled);
      [|destruct (errors_Is err IsDeadlineExceeded)];
      simpl; rewrite !chronicle_cons; simpl; rewrite ?app_nil_r;
      split_and!; try done; try lia; by left.
  - apply attempt_once_Stop in Hstop
      as (Hatt & _ & _ & _ & Hreqs & answer & Hlog & Hwhy).
    exists 0%nat. simpl in *. rewrite Hatt, Hreqs, Hlog.
    split_and!; try lia.
    unfold increments. rewrite chronicle_cons, chronicle_app, !chronicle_cons.
    simpl. rewrite !app_nil_r.
    destruct (RoundTrip env _ _ _) as [code|e].
    + destruct Hwhy as [[-> _]|[-> _]]; apply app_nil_r.
    + destruct Hwhy as [_ ->].
      destruct (errors_Is e IsErrRetry); apply app_nil_r.
  - apply attempt_once_Again in Hagain
      as (Hlt & _ & Hatt & _ & _ & _ & Hreqs & Hlog).
    simpl in *.
    assert (Hincr : attempt (pr s) = attempt (pr st) + 1).
    { rewrite Hatt. apply incr_no_overflow.
      unfold GoInt.in_range in Hmax. lia. }
    destruct IH as (k & IHatt & IHk & IHinc & IHreqs); [lia|].
    exists (S k). split_and!; try lia.
    unfold increments in *. rewrite chronicle_cons, IHinc, Hlog, !chronicle_cons.
    simpl. rewrite !app_nil_r, <- !app_assoc. f_equal. simpl. f_equal.
    + lia.
    + rewrite <- (seq_shift k 1), map_map. apply map_ext. intros i. lia.
Qed.


(** What the client is told when a run ends at the load balancer or at a
    backend that did not answer; and never more than one response. *)
Lemma Run_responses st st' :
  Run h env st st' ->
  (exists answer, responses (log st') = responses (log st) ++ answer /\
                  (length answer <= 1)%nat) /\
  (forall addr err,
      AwaitBestAddress env (lbCalls st' - 1) (address_request st)
      = (addr, Some err) ->
      responses (log st') = responses (log st) ++ [
        if errors_Is err IsCanceled then
          SendErrorResponse StatusInternalServerError
            "request cancelled while finding host: %v" [Error err]
        else if errors_Is err IsDeadlineExceeded then
          SendErrorResponse StatusGatewayTimeout
            "request timeout while finding host: %v" [Error err]
        else
          SendErrorResponse StatusGatewayTimeout
            "unable to find host: %v" [Error err]]) /\
  (forall addr err,
      AwaitBestAddress env (lbCalls st' - 1) (address_request st)
      = (addr, None) ->
      RoundTrip env (backendReqs st' - 1) addr (body (pr st)) = inr err ->
      errors_Is err IsErrRetry = false ->
      responses (log st') = responses (log st) ++ [
        SendErrorResponse StatusBadGateway "proxy: exceeded retries: %v/%v"
          [pretty (attempt (pr st')); pretty (maxRetries h)]]).
Proof.
  induction 1 as [st addr err Hlb | st addr s Hlb Hstop
                 | st addr s s' Hlb Hagain Hrun IH].
  - assert (Hlog : log (no_host err (awaited st)) =
      (if errors_Is err IsCanceled then
          SendErrorResponse StatusInternalServerError
            "request cancelled while finding host: %v" [Error err]
        else if errors_Is err IsDeadlineExceeded then
          SendErrorResponse StatusGatewayTimeout
            "request timeout while finding host: %v" [Error err]
        else
          SendErrorResponse StatusGatewayTimeout
            "unable to find host: %v" [Error err])
      :: CallAwaitBestAddress (lbCalls st) (address_request st) :: log st).
    { unfold no_host, sendErrorResponse.
      destruct (errors_Is err IsCanceled); [done|].
      by destruct (errors_Is err IsDeadlineExceeded). }
    assert (Hcalls : lbCalls (no_host err (awaited st)) = S (lbCalls st)).
    { unfold no_host, sendErrorResponse.
      destruct (errors_Is err IsCanceled); [done|].
      by destruct (errors_Is err IsDeadlineExceeded). }
    rewrite Hlog, Hcalls. simpl. rewrite Nat.sub_0_r.
    unfold responses. rewrite !chronicle_cons. simpl. rewrite app_nil_r.
    split_and!.
    + eexists. split; [reflexivity|].
      destruct (errors_Is err IsCanceled);
        [|destruct (errors_Is err IsDeadlineExceeded)]; simpl; lia.
    + intros addr' err' Hlb'. rewrite Hlb in Hlb'. simplify_eq.
      f_equal.
      destruct (errors_Is err' IsCanceled);
        [|destruct (errors_Is err' IsDeadlineExceeded)]; done.
    + intros addr' err' Hlb'. rewrite Hlb in Hlb'. discriminate.
  - apply attempt_once_Stop in Hstop
      as (Hatt & Hbody & _ & Hcalls & Hreqs & answer & Hlog & Hwhy).
    simpl in *. rewrite Hcalls, Hreqs, Hlog, Hatt. simpl.
    rewrite !Nat.sub_0_r.
    unfold responses. rewrite chronicle_cons, chronicle_app, !chronicle_cons.
    simpl. rewrite !app_nil_r. split_and!.
    + eexists. split; [reflexivity|].
      destruct (RoundTrip env _ _ _) as [code|e].
      * destruct Hwhy as [[-> _]|[-> _]]; simpl; lia.
      * destruct Hwhy as [_ ->]. destruct (errors_Is e IsErrRetry); simpl; lia.
    + intros addr' err' Hlb'. rewrite Hlb in Hlb'. discriminate.
    + intros addr' err' Hlb' Hrt Hpure. rewrite Hlb in Hlb'. simplify_eq.
      rewrite Hrt in Hwhy. destruct Hwhy as [_ ->]. by rewrite Hpure.
  - apply attempt_once_Again in Hagain
      as (_ & _ & _ & Hbody & Hreq & _ & _ & Hlog).
    simpl in *. change (address_request (awaited st)) with (address_request st) in *.
    rewrite Hreq, Hbody in IH.
    assert (Hsame : responses (log s) = responses (log st)).
    { unfold responses. rewrite Hlog, !chronicle_cons. simpl.
      by rewrite !app_nil_r. }
    rewrite Hsame in IH.
    assert (Hcons : responses (DecrementInflight (lbCalls st) :: log s')
                    = responses (log s')).
    { unfold responses. rewrite chronicle_cons. simpl. by rewrite app_nil_r. }
    rewrite Hcons. exact IH.
Qed.

(** Every run of [proxyHTTP] returns, given fuel for the retries left. *)
Lemma proxyHTTP_total :
  GoInt.in_range (maxRetries h) ->
  forall fuel st,
    GoInt.min_int <= attempt (pr st) ->
    (Z.to_nat (maxRetries h - attempt (pr st)) < fuel)%nat ->
    exists st', proxyHTTP fuel h env st = Some st'.
Proof.
  intros Hmax. induction fuel as [|fuel IH]; intros st Hmin Hfuel; [lia|].
  rewrite proxyHTTP_unfold.
  destruct (AwaitBestAddress env _ _) as [addr [err|]]; [eauto|].
  destruct (attempt_once h env addr (awaited st)) as [s|s] eqn:Hatt; [eauto|].
  apply attempt_once_Again in Hatt as (Hlt & _ & Hatt & _).
  simpl in *.
  assert (Hincr : attempt (pr s) = attempt (pr st) + 1).
  { rewrite Hatt. apply incr_no_overflow.
    unfold GoInt.in_range in Hmax. lia. }
  destruct (IH s) as [s' Hs']; [lia|lia|].
  rewrite Hs'. simpl. eauto.
Qed.

(** [ServeHTTP] answers early, or hands over to a run of [proxyHTTP]. *)
Lemma ServeHTTP_proxies rid p :
  GoInt.in_range (maxRetries h) ->
  parse env = inr p ->
  LookupModel env (p_model p) (p_adapter p) (p_selectors p) = (true, None) ->
  ScaleAtLeastOneReplica env (p_model p) = None ->
  exists st',
    Run h env (entry rid p) st' /\
    ServeHTTP h env rid
    = Some (emit (MetricAdd (p_requestedModel p) (-1)) st').
Proof.
  intros Hmax Hparse Hlookup Hscale.
  assert (Hserve : ServeHTTP h env rid =
            option_map (emit (MetricAdd (p_requestedModel p) (-1)))
              (proxyHTTP (fuel_for h (entry rid p)) h env (entry rid p))).
  { unfold ServeHTTP. rewrite Hparse. simpl. rewrite Hlookup. simpl.
    by rewrite Hscale. }
  destruct (proxyHTTP_total Hmax (fuel_for h (entry rid p)) (entry rid p))
    as [st' Hst'].
  - simpl. unfold GoInt.min_int. lia.
  - unfold fuel_for. lia.
  - exists st'. split; [by eapply proxyHTTP_Run|]. by rewrite Hserve, Hst'.
Qed.

Lemma ServeHTTP_cases rid :
  GoInt.in_range (maxRetries h) ->
  (exists st, ServeHTTP h env rid = Some st /\ early st) \/
  (exists p st',
      Run h env (entry rid p) st' /\
      ServeHTTP h env rid
      = Some (emit (MetricAdd (p_requestedModel p) (-1)) st')).
Proof.
  intros Hmax.
  destruct (parse env) as [err|p] eqn:Hparse.
  { left. unfold ServeHTTP. rewrite Hparse. eexists. split; [reflexivity|].
    by split_and!. }
  destruct (LookupModel env (p_model p) (p_adapter p) (p_selectors p))
    as [modelExists [err|]] eqn:Hlookup.
  { left. unfold ServeHTTP. rewrite Hparse. simpl. rewrite Hlookup.
    eexists. split; [reflexivity|]. by split_and!. }
  destruct modelExists.
  2:{ left. unfold ServeHTTP. rewrite Hparse. simpl. rewrite Hlookup.
      eexists. split; [reflexivity|]. by split_and!. }
  destruct (ScaleAtLeastOneReplica env (p_model p)) as [err|] eqn:Hscale.
  { left. unfold ServeHTTP. rewrite Hparse. simpl. rewrite Hlookup. simpl.
    rewrite Hscale. eexists. split; [reflexivity|]. by split_and!. }
  right. exists p.
  by apply ServeHTTP_proxies.
Qed.

(** The backend requests, the calls of the load balancer and the
    completions of a whole request, from the log of its run. *)
Lemma proxied_requests rid p st' :
  Run h env (entry rid p) st' ->
  let st := emit (MetricAdd (p_requestedModel p) (-1)) st' in
  let n := backendReqs st in
  backend_requests (log st)
  = map (fun k => (fst (AwaitBestAddress env k (address_request st)),
                   body (pr st))) (seq 0 n) /\
  Forall (fun k => snd (AwaitBestAddress env k (address_request st)) = None)
         (seq 0 n) /\
  await_calls (log st) = seq 0 (lbCalls st) /\
  (n <= lbCalls st <= S n)%nat /\
  completions (log st) = rev (seq 0 n) /\
  exists mid,
    log st = (MetricAdd (p_requestedModel p) (-1)
                :: map DecrementInflight (seq 0 n))
             ++ (mid ++ log (entry rid p)) /\
    completions mid = [].
Proof.
  intros Hrun.
  destruct (Run_log _ _ Hrun)
    as (Hbody & Hreq & n0 & mid & Hreqs & Hcalls & Hlog & Hc & Ha & Hb & Hok).
  intros st n.
  change (lbCalls (entry rid p)) with O in *.
  change (backendReqs (entry rid p)) with O in *.
  change (address_request st) with (address_request st').
  change (body (pr st)) with (body (pr st')).
  change (lbCalls st) with (lbCalls st').
  change (log st) with (MetricAdd (p_requestedModel p) (-1) :: log st').
  assert (n = n0) as <- by (subst n; simpl; lia).
  rewrite Nat.sub_0_r in Ha.
  rewrite Hlog, Hbody, Hreq.
  unfold backend_requests, await_calls, completions in *.
  rewrite !chronicle_cons, !chronicle_app, Hc, Ha, Hb.
  rewrite !chronicle_map_completion by done.
  change (chronicle as_completion (map DecrementInflight (seq 0 n)))
    with (completions (map DecrementInflight (seq 0 n))).
  rewrite chronicle_completions_map.
  cbn [entry log chronicle rev app omap list_omap as_backend_request
       as_await_call as_completion].
  rewrite !app_nil_r.
  split_and!; try done; try lia.
  by exists mid.
Qed.



Lemma client_status_responses l :
  client_status l = omap as_status (responses l).
Proof.
  unfold client_status, responses, chronicle.
  induction (rev l) as [|e es IH]; [done|].
  destruct e; cbn; rewrite ?IH; done.
Qed.

(** C3: the status the client gets.  400 when the model cannot be parsed;
    500 when the lookup fails and 404 when the model is not known; 500
    when scaling fails; 500 when the wait for an address ends with
    [context.Canceled] and 504 when it ends with any other error; 502
    from [sendErrorResponse] when the last backend request got no
    response and was not retried.  Never more than one response. *)
Theorem status_mapping rid :
  GoInt.in_range (maxRetries h) ->
  exists st,
    ServeHTTP h env rid = Some st /\
    match parse env with
    | inl err =>
        responses (log st)
        = [SendErrorResponse StatusBadRequest "unable to parse model: %v"
             [Error err]]
    | inr p =>
        match LookupModel env (p_model p) (p_adapter p) (p_selectors p) with
        | (_, Some err) =>
            responses (log st)
            = [SendErrorResponse StatusInternalServerError
                 "unable to resolve model: %v" [Error err]]
        | (false, None) =>
            responses (log st)
            = [SendErrorResponse StatusNotFound "model not found: %v"
                 [p_requestedModel p]]
        | (true, None) =>
            match ScaleAtLeastOneReplica env (p_model p) with
            | Some err =>
                responses (log st)
                = [SendErrorResponse StatusInternalServerError
                     "unable to scale model: %v" [Error err]]
            | None =>
                (length (responses (log st)) <= 1)%nat /\
                (forall addr err,
                    AwaitBestAddress env (lbCalls st - 1) (address_request st)
                    = (addr, Some err) ->
                    client_status (log st)
                    = [if errors_Is err IsCanceled
                       then StatusInternalServerError
                       else StatusGatewayTimeout]) /\
                (forall addr err,
                    AwaitBestAddress env (lbCalls st - 1) (address_request st)
                    = (addr, None) ->
                    RoundTrip env (backendReqs st - 1) addr (body (pr st))
                    = inr err ->
                    errors_Is err IsErrRetry = false ->
                    responses (log st)
                    = [SendErrorResponse StatusBadGateway
                         "proxy: exceeded retries: %v/%v"
                         [pretty (attempt (pr st)); pretty (maxRetries h)]])
            end
        end
    end.
Proof.
  intros Hmax.
  destruct (parse env) as [err|p] eqn:Hparse.
  { unfold ServeHTTP. rewrite Hparse. eexists. split; reflexivity. }
  destruct (LookupModel env (p_model p) (p_adapter p) (p_selectors p))
    as [modelExists [err|]] eqn:Hlookup.
  { unfold ServeHTTP. rewrite Hparse. simpl. rewrite Hlookup.
    destruct modelExists; eexists; split; reflexivity. }
  destruct modelExists.
  2:{ unfold ServeHTTP. rewrite Hparse. simpl. rewrite Hlookup.
      eexists. split; reflexivity. }
  destruct (ScaleAtLeastOneReplica env (p_model p)) as [err|] eqn:Hscale.
  { unfold ServeHTTP. rewrite Hparse. simpl. rewrite Hlookup. simpl.
    rewrite Hscale. eexists. split; reflexivity. }
  destruct (ServeHTTP_proxies rid p Hmax Hparse Hlookup Hscale)
    as (st' & Hrun & Hst).
  eexists. split; [exact Hst|].
  destruct (Run_log _ _ Hrun) as (Hbody & Hreq & _).
  destruct (Run_responses _ _ Hrun) as ((answer & Hans & Hone) & Hwait & Hdrop).
  set (st := emit (MetricAdd (p_requestedModel p) (-1)) st').
  change (address_request st) with (address_request st').
  change (body (pr st)) with (body (pr st')).
  change (lbCalls st) with (lbCalls st').
  change (backendReqs st) with (backendReqs st').
  change (attempt (pr st)) with (attempt (pr st')).
  assert (Hlast : responses (log st) = responses (log st')).
  { unfold responses. subst st. simpl. rewrite chronicle_cons. simpl.
    by rewrite app_nil_r. }
  rewrite client_status_responses, Hlast, Hreq, Hbody.
  change (responses (log (entry rid p))) with (@nil event) in *.
  simpl in Hans, Hwait, Hdrop.
  split_and!.
  - rewrite Hans. done.
  - intros addr err Hlb. rewrite (Hwait _ _ Hlb).
    destruct (errors_Is err IsCanceled); [done|].
    by destruct (errors_Is err IsDeadlineExceeded).
  - intros addr err Hlb Hrt Hpure. by rewrite (Hdrop _ _ Hlb Hrt Hpure).
Qed.

End HandlerFacts.



(** The dropped connection of the handler test: four requests, then 502. *)
Lemma status_mapping_witness :
  GoInt.in_range (Modelproxy.maxRetries Scenario.h3) /\
  exists st,
    Modelproxy.ServeHTTP Scenario.h3 Scenario.dropped_connection "r1" = Some st /\
    Modelproxy.responses (Modelproxy.log st)
    = [Modelproxy.SendErrorResponse Modelproxy.StatusBadGateway
         "proxy: exceeded retries: %v/%v" ["3"; "3"]].
Proof.
  assert (H3 : GoInt.in_range (Modelproxy.maxRetries Scenario.h3)).
  { unfold GoInt.in_range, GoInt.min_int, GoInt.max_int. simpl. lia. }
  split; [exact H3|].
  destruct (status_mapping Scenario.h3 Scenario.dropped_connection "r1" H3)
    as (st & Hst & _ & _ & Hdrop).
  exists st. split; [exact Hst|].
  pose proof Hst as Hval. vm_compute in Hval. injection Hval as <-.
  apply (Hdrop "10.0.0.1:8000" (errors_New "EOF")); reflexivity.
Defined.

(** ** The messenger *)

Section MessengerFacts.
Import Messenger.
Variables (J : Json) (env : Env).


Lemma published_cons e l :
  published (e :: l) =
  published l ++ match as_published e with Some r => [r] | None => [] end.
Proof.
  unfold published. simpl. rewrite omap_app. simpl.
  by destruct (as_published e).
Qed.

Lemma delivery_cons e l :
  delivery (e :: l) =
  delivery l ++ match as_delivery e with Some d => [d] | None => [] end.
Proof.
  unfold delivery. simpl. rewrite omap_app. simpl.
  by destruct (as_delivery e).
Qed.

Lemma sendResponse_settled r b code st :
  exists st',
    sendResponse J env (Some r) b code st = Returned st' /\
    settled J env (msg r)
      {| response_Metadata := metadata r; response_StatusCode := code;
         response_Body := b |}
      (consecutiveErrors st) st st'.
Proof.
  unfold sendResponse, settled, encoded, after_marshal.
  destruct (Marshal_response J _) as [err|text]; simpl;
    destruct (Send env _ _) as [err'|]; simpl;
    try destruct (Nackable (msg r)); simpl;
    try destruct (code <? 300); simpl;
    eexists; (split; [reflexivity|]); simpl;
    rewrite ?published_cons, ?delivery_cons; simpl;
    rewrite ?app_nil_r, <- ?app_assoc; done.
Qed.






(** C8: a message whose envelope and body decode gets the default path or
    a leading slash, the model and adapter split from the body's model
    field, and a body that is re-marshalled with the adapter as its model
    exactly when there is an adapter. *)
Theorem parseRequest_fields m p fields modelStr :
  Unmarshal_payload J (Body m) = inr p ->
  Unmarshal_map J (payload_Body p) = inr fields ->
  fields !! "model" = Some (JString modelStr) ->
  ((Apiutils.SplitModelAdapter modelStr).2 <> "" ->
   exists rewritten,
     Marshal_map J (<["model" := JString (Apiutils.SplitModelAdapter modelStr).2]> fields)
     = inr rewritten) ->
  exists r,
    parseRequest J m = (Some r, None) /\
    msg r = m /\
    metadata r = payload_Metadata p /\
    (payload_Path p = "" -> path r = "/v1/completions") /\
    (payload_Path p <> "" -> HasPrefix_slash (payload_Path p) = false ->
     path r = "/" +:+ payload_Path p) /\
    (HasPrefix_slash (payload_Path p) = true -> path r = payload_Path p) /\
    HasPrefix_slash (path r) = true /\
    requestedModel r = modelStr /\
    (model r, adapter r) = Apiutils.SplitModelAdapter modelStr /\
    (adapter r = "" -> body r = payload_Body p) /\
    (adapter r <> "" ->
     Marshal_map J (<["model" := JString (adapter r)]> fields) = inr (body r)).
Proof.
  intros Hp Hfields Hmodel Hmarshal.
  unfold parseRequest. rewrite Hp, Hfields, Hmodel.
  destruct (Apiutils.SplitModelAdapter modelStr) as [mdl adp] eqn:Hsplit.
  simpl in Hmarshal.
  assert (Hpath : forall s,
    (if decide (payload_Path p = "") then "/v1/completions"
     else if negb (HasPrefix_slash (payload_Path p))
          then "/" +:+ payload_Path p else payload_Path p) = s ->
    (payload_Path p = "" -> s = "/v1/completions") /\
    (payload_Path p <> "" -> HasPrefix_slash (payload_Path p) = false ->
     s = "/" +:+ payload_Path p) /\
    (HasPrefix_slash (payload_Path p) = true -> s = payload_Path p) /\
    HasPrefix_slash s = true).
  { intros s <-. destruct (decide (payload_Path p = "")) as [Hnil|Hnil].
    - rewrite Hnil. by split_and!.
    - destruct (HasPrefix_slash (payload_Path p)) eqn:Hslash; simpl;
        by split_and!. }
  destruct (decide (adp <> "")) as [Hadp|Hadp].
  - destruct (Hmarshal Hadp) as [rewritten Hrew]. rewrite Hrew.
    eexists. split; [reflexivity|]. simpl.
    destruct (Hpath _ eq_refl) as (? & ? & ? & ?). by split_and!.
  - eexists. split; [reflexivity|]. simpl.
    destruct (Hpath _ eq_refl) as (? & ? & ? & ?).
    by split_and!.
Qed.


(** Only a message that is not JSON at all keeps its request: every other
    error of [parseRequest] comes with a nil request. *)
Lemma parseRequest_error_nil m p req err :
  Unmarshal_payload J (Body m) = inr p ->
  parseRequest J m = (req, Some err) ->
  req = None.
Proof.
  unfold parseRequest. intros ->.
  destruct (Unmarshal_map J (payload_Body p)) as [e|fields]; [by intros [= <- _]|].
  destruct (fields !! "model") as [[| | |s| |]|]; try by intros [= <- _].
  destruct (Apiutils.SplitModelAdapter s) as [mdl adp].
  destruct (decide (adp <> "")); [|done].
  destruct (Marshal_map J _); [by intros [= <- _]|done].
Qed.

(** With a nil request the handler panics in [sendResponse], after
    [jsonError] has counted the error: nothing is published, and the
    message is neither acknowledged nor rejected. *)
Lemma handleRequest_nil_request m st err :
  parseRequest J m = (None, Some err) ->
  handleRequest J env m st = Panicked (addConsecutiveError st).
Proof. intros Hparse. unfold handleRequest. by rewrite Hparse. Qed.

(** The receive loop, turn by turn. *)
Lemma recvLoop_restart cfg err shutdownErr schedule restartAttempt trace :
  errors_Is err IsCanceled = false ->
  0 <= restartAttempt <= maxRestartAttempts ->
  recvLoop cfg (ReceiveFails err shutdownErr None :: schedule) restartAttempt trace
  = recvLoop cfg schedule (restartAttempt + 1)
      (OpenSubscription (requestsURL cfg)
         :: Sleep (Z.min (restartAttempt * Second) (10 * Second))
         :: Shutdown :: trace).
Proof.
  intros Herr Hatt. unfold maxRestartAttempts in Hatt. simpl. rewrite Herr.
  destruct (Z.gtb_spec restartAttempt maxRestartAttempts) as [Hgt|_];
    [unfold maxRestartAttempts in Hgt; lia|].
  unfold GoInt.mul, GoInt.incr.
  rewrite !wrap64_id; [done|..];
    unfold GoInt.in_range, GoInt.min_int, GoInt.max_int, Second; lia.
Qed.

Lemma recvLoop_gives_up cfg err shutdownErr subErr schedule restartAttempt trace :
  errors_Is err IsCanceled = false ->
  (fst (recvLoop cfg (ReceiveFails err shutdownErr subErr :: schedule)
          restartAttempt trace) = Exited (Some err) /\
   snd (recvLoop cfg (ReceiveFails err shutdownErr subErr :: schedule)
          restartAttempt trace) = trace)
  <-> maxRestartAttempts < restartAttempt.
Proof.
  intros Herr. simpl. rewrite Herr.
  destruct (Z.gtb_spec restartAttempt maxRestartAttempts) as [Hgt|Hle].
  - simpl. split; [lia|done].
  - split; [|lia]. intros [_ Htrace]. exfalso.
    assert (Hlen : forall s ra t,
      (length t <= length (snd (recvLoop cfg s ra t)))%nat).
    { induction s as [|[e sh se|m' d n] s IH]; intros ra t; simpl; [lia| |].
      - destruct (errors_Is e IsCanceled); [simpl; lia|].
        destruct (ra >? maxRestartAttempts); [simpl; lia|].
        destruct se; [simpl; lia|].
        etransitivity; [|apply IH]. simpl. lia.
      - destruct d; [simpl; lia|].
        etransitivity; [|apply IH]. destruct (n >? 0); simpl; lia. }
    destruct subErr as [e|].
    + simpl in Htrace. apply (f_equal (@length _)) in Htrace. simpl in Htrace. lia.
    + apply (f_equal (@length _)) in Htrace.
      match type of Htrace with
      | length (snd (recvLoop _ ?s ?ra ?t)) = _ =>
          pose proof (Hlen s ra t) as Hge
      end.
      simpl in Hge. lia.
Qed.

Lemma recvLoop_message_resets cfg m ctxDone n schedule restartAttempt trace :
  recvLoop cfg (ReceiveMessage m ctxDone n :: schedule) restartAttempt trace
  = recvLoop cfg (ReceiveMessage m ctxDone n :: schedule) 0 trace.
Proof. reflexivity. Qed.

Lemma consecutiveErrBackoff_min n max :
  0 <= n -> n * Second <= GoInt.max_int ->
  consecutiveErrBackoff n max = Z.min (n * Second) max.
Proof.
  intros Hn Hfit. unfold consecutiveErrBackoff, GoInt.mul.
  rewrite wrap64_id.
  - destruct (Z.gtb_spec (n * Second) max); lia.
  - unfold GoInt.in_range, GoInt.min_int, GoInt.max_int, Second in *. lia.
Qed.

(** Beyond 9223372036 errors in a row the product wraps around. *)
Remark consecutiveErrBackoff_wraps :
  consecutiveErrBackoff 9223372037 (30 * Second) = -9223372036709551616.
Proof. reflexivity. Qed.

(** C9: after a message is dispatched, the loop sleeps once, for
    [min(n seconds, ErrorMaxBackoff)], when the counter reads [n > 0], and
    does not sleep when it reads 0; then it receives again. *)
Theorem backoff_after_dispatch cfg m n schedule restartAttempt trace :
  0 <= n -> n * Second <= GoInt.max_int ->
  recvLoop cfg (ReceiveMessage m false n :: schedule) restartAttempt trace
  = recvLoop cfg schedule 0
      (if decide (n = 0) then Dispatch m :: trace
       else Sleep (Z.min (n * Second) (ErrorMaxBackoff cfg))
              :: Dispatch m :: trace).
Proof.
  intros Hn Hfit. simpl.
  rewrite consecutiveErrBackoff_min by done.
  destruct (decide (n = 0)) as [->|Hpos]; [done|].
  destruct (Z.gtb_spec n 0); [done|lia].
Qed.

End MessengerFacts.

(** A message with model and adapter and a path without its slash. *)
Lemma parseRequest_fields_witness :
  exists r,
    Messenger.parseRequest Scenario.J0 (Scenario.message Scenario.text_m3_a3)
    = (Some r, None) /\
    Messenger.path r = "/v1/chat/completions" /\
    (Messenger.model r, Messenger.adapter r) = ("m3", "a3") /\
    Messenger.body r = Scenario.body_a3.
Proof.
  destruct (parseRequest_fields Scenario.J0
              (Scenario.message Scenario.text_m3_a3)
              {| Messenger.payload_Metadata := None;
                 Messenger.payload_Path := "v1/chat/completions";
                 Messenger.payload_Body := Scenario.body_m3_a3 |}
              {[ "model" := Messenger.JString "m3_a3" ]} "m3_a3")
    as (r & Hr & _ & _ & _ & Hpath & _ & _ & _ & Hsplit & _ & Hbody).
  - reflexivity.
  - reflexivity.
  - reflexivity.
  - intros _. eexists. vm_compute. reflexivity.
  - exists r. pose proof Hr as Hval. vm_compute in Hval. injection Hval as <-.
    split; [exact Hr|]. by split_and!.
Defined.



(** C7: a message whose envelope is JSON but whose body names no model.
    [parseRequest] returns a nil request with its error, and the handler
    panics on [req.msg] in [sendResponse]: no 400 response is sent. *)
Theorem parse_error_panics :
  Messenger.parseRequest Scenario.J0 (Scenario.message Scenario.text_no_model)
  = (None, Some (errors_New "missing '.body.model' field")) /\
  Messenger.handleRequest Scenario.J0 (Scenario.backend_answers 200)
    (Scenario.message Scenario.text_no_model) Scenario.idle
  = Messenger.Panicked
      {| Messenger.consecutiveErrors := 1; Messenger.log := [] |}.
Proof. split; reflexivity. Qed.

(** C5: twenty-two failures of [Receive] in a row.  After twenty restarts
    the next failure does not end the loop: the subscription is recreated
    a twenty-first time, and only the failure after that makes [Start]
    return the error. *)
Theorem Start_restarts_21_times :
  fst (Messenger.Start Scenario.cfg0 (repeat Scenario.receive_fails 21))
  = Messenger.Receiving 21 /\
  Messenger.restarts
    (snd (Messenger.Start Scenario.cfg0 (repeat Scenario.receive_fails 21)))
  = 21%nat /\
  fst (Messenger.Start Scenario.cfg0 (repeat Scenario.receive_fails 22))
  = Messenger.Exited (Some (errors_New "connection reset")) /\
  Messenger.restarts
    (snd (Messenger.Start Scenario.cfg0 (repeat Scenario.receive_fails 22)))
  = 21%nat.
Proof. vm_compute. by split_and!. Qed.

(** Forty-five errors in a row against a cap of thirty seconds. *)
Lemma backoff_after_dispatch_witness :
  0 <= 45 /\ 45 * Messenger.Second <= GoInt.max_int /\
  Messenger.recvLoop Scenario.cfg0
    [Messenger.ReceiveMessage (Scenario.message Scenario.text_m1) false 45] 7 []
  = (Messenger.Receiving 0,
     [Messenger.Sleep (30 * Messenger.Second);
      Messenger.Dispatch (Scenario.message Scenario.text_m1)]).
Proof.
  assert (H45 : 45 * Messenger.Second <= GoInt.max_int).
  { unfold Messenger.Second, GoInt.max_int. lia. }
  split; [lia|]. split; [exact H45|].
  exact (backoff_after_dispatch Scenario.cfg0
           (Scenario.message Scenario.text_m1) 45 [] 7 [] ltac:(lia) H45).
Defined.
(** ** More on the HTTP handler *)

Section HandlerMore.
Import Modelproxy.
Variables (h : Handler) (env : Env).

(** A run of [proxyHTTP] logs neither headers nor metrics. *)
Lemma Run_outside_proxy {A} (pick : event -> option A) st st' :
  HandlerLog.outside_proxy pick ->
  Run h env st st' ->
  chronicle pick (log st') = chronicle pick (log st).
Proof.
  intros Hpick.
  assert (Hcons : forall e l,
    match e with SetHeader _ _ | MetricAdd _ _ => False | _ => True end ->
    chronicle pick (e :: l) = chronicle pick l).
  { intros e l He. rewrite chronicle_cons. specialize (Hpick e).
    destruct e; try done; by rewrite Hpick, app_nil_r. }
  induction 1 as [st addr err Hlb | st addr s Hlb Hstop
                 | st addr s s' Hlb Hagain Hrun IH].
  - unfold no_host, sendErrorResponse.
    destruct (errors_Is err IsCanceled);
      [|destruct (errors_Is err IsDeadlineExceeded)];
      simpl; by rewrite !Hcons.
  - apply attempt_once_Stop in Hstop
      as (_ & _ & _ & _ & _ & answer & Hlog & Hwhy).
    simpl in *. rewrite Hcons, Hlog by done.
    assert (Hanswer : chronicle pick (answer ++ BackendRequest addr (body (pr st))
                        :: CallAwaitBestAddress (lbCalls st) (address_request st)
                        :: log st) = chronicle pick (log st)).
    { destruct (RoundTrip env _ _ _) as [code|e].
      - destruct Hwhy as [[-> _]|[-> _]]; simpl; by rewrite !Hcons.
      - destruct Hwhy as [_ ->].
        destruct (errors_Is e IsErrRetry); simpl; by rewrite !Hcons. }
    exact Hanswer.
  - apply attempt_once_Again in Hagain
      as (_ & _ & _ & _ & _ & _ & _ & Hlog).
    simpl in *. rewrite Hcons, IH, Hlog by done. by rewrite !Hcons.
Qed.

(** Without a failing load balancer every call of it is followed by a
    backend request. *)
Lemma Run_calls st st' :
  (forall k, snd (AwaitBestAddress env k (address_request st)) = None) ->
  Run h env st st' ->
  (lbCalls st' + backendReqs st = lbCalls st + backendReqs st')%nat.
Proof.
  intros Hok Hrun. revert Hok.
  induction Hrun as [st addr err Hlb | st addr s Hlb Hstop
                    | st addr s s' Hlb Hagain Hrun IH]; intros Hok.
  - specialize (Hok (lbCalls st)). by rewrite Hlb in Hok.
  - apply attempt_once_Stop in Hstop as (_ & _ & _ & Hcalls & Hreqs & _).
    simpl in *. lia.
  - apply attempt_once_Again in Hagain
      as (_ & _ & _ & _ & Hreq & Hcalls & Hreqs & _).
    simpl in *. rewrite Hreq in IH. specialize (IH Hok). lia.
Qed.

(** Every invocation of [proxyHTTP] asks the load balancer once, and
    every invocation but the first follows an increment of the counter. *)
Lemma Run_invocations st st' :
  GoInt.in_range (maxRetries h) ->
  GoInt.min_int <= attempt (pr st) ->
  Run h env st st' ->
  Z.of_nat (lbCalls st')
  = Z.of_nat (lbCalls st) + (attempt (pr st') - attempt (pr st)) + 1.
Proof.
  intros Hmax Hmin Hrun. revert Hmin.
  induction Hrun as [st addr err Hlb | st addr s Hlb Hstop
                    | st addr s s' Hlb Hagain Hrun IH]; intros Hmin.
  - unfold no_host, sendErrorResponse.
    destruct (errors_Is err IsCanceled);
      [|destruct (errors_Is err IsDeadlineExceeded)]; simpl; lia.
  - apply attempt_once_Stop in Hstop as (Hatt & _ & _ & Hcalls & _).
    simpl in *. lia.
  - apply attempt_once_Again in Hagain
      as (Hlt & _ & Hnext & _ & _ & Hcalls & _).
    simpl in *.
    assert (Hincr : attempt (pr s) = attempt (pr st) + 1).
    { rewrite Hnext. apply incr_no_overflow.
      unfold GoInt.in_range in Hmax. lia. }
    specialize (IH ltac:(lia)). lia.
Qed.

(** A run in which nothing ends the retrying early uses up its retries. *)
Lemma Run_exhausts st st' :
  GoInt.in_range (maxRetries h) ->
  GoInt.min_int <= attempt (pr st) <= maxRetries h ->
  (forall k, snd (AwaitBestAddress env k (address_request st)) = None) ->
  (forall n, ctxErr env n = None) ->
  (forall n addr code,
      RoundTrip env n addr (body (pr st)) = inl code ->
      isRetryCode h code = true) ->
  Run h env st st' ->
  backendReqs st'
  = (backendReqs st + S (Z.to_nat (maxRetries h - attempt (pr st))))%nat /\
  attempt (pr st') = maxRetries h /\
  responses (log st')
  = responses (log st)
      ++ HandlerLog.final_answer h
           (RoundTrip env (backendReqs st' - 1)
              (fst (AwaitBestAddress env (lbCalls st' - 1) (address_request st)))
              (body (pr st)))
           (attempt (pr st')).
Proof.
  intros Hmax Hatt Hlbok Hctx Hcodes Hrun. revert Hatt Hlbok Hcodes.
  induction Hrun as [st addr err Hlb | st addr s Hlb Hstop
                    | st addr s s' Hlb Hagain Hrun IH]; intros Hatt Hlbok Hcodes.
  - specialize (Hlbok (lbCalls st)). by rewrite Hlb in Hlbok.
  - apply attempt_once_Stop in Hstop
      as (Hsame & _ & _ & Hcalls & Hreqs & answer & Hlog & Hwhy).
    simpl in *. rewrite Hcalls, Hreqs, Hsame, Hlog. simpl.
    rewrite !Nat.sub_0_r, Hlb. simpl.
    unfold responses. rewrite chronicle_cons, chronicle_app, !chronicle_cons.
    simpl. rewrite !app_nil_r.
    destruct (RoundTrip env (backendReqs st) addr (body (pr st)))
      as [code|e] eqn:Hrt.
    + destruct Hwhy as [[-> [Hno|Hlast]]|[_ Hfail]].
      * by rewrite (Hcodes _ _ _ Hrt) in Hno.
      * replace (maxRetries h - attempt (pr st)) with 0 by lia.
        split_and!; [simpl; lia | lia | done].
      * by rewrite Hctx in Hfail.
    + destruct Hwhy as [[Hfail|Hlast] ->]; [by rewrite Hctx in Hfail|].
      replace (maxRetries h - attempt (pr st)) with 0 by lia.
      assert (attempt (pr st) = maxRetries h) as -> by lia.
      split_and!; [simpl; lia | done |].
      simpl. by destruct (errors_Is e IsErrRetry).
  - apply attempt_once_Again in Hagain
      as (Hlt & _ & Hnext & Hbody & Hreq & Hcalls & Hreqs & Hlog).
    simpl in *.
    change (address_request (awaited st)) with (address_request st) in *.
    assert (Hincr : attempt (pr s) = attempt (pr st) + 1).
    { rewrite Hnext. apply incr_no_overflow.
      unfold GoInt.in_range in Hmax. lia. }
    rewrite Hreq, Hbody in IH.
    destruct IH as (IHreqs & IHatt & IHresp); [lia|done|done|].
    assert (Hsame : responses (log s) = responses (log st)).
    { unfold responses. rewrite Hlog, !chronicle_cons. simpl.
      by rewrite !app_nil_r. }
    split_and!.
    + rewrite IHreqs, Hreqs, Hincr.
      replace (maxRetries h - attempt (pr st))
        with (Z.succ (maxRetries h - (attempt (pr st) + 1))) by lia.
      rewrite Z2Nat.inj_succ by lia. lia.
    + done.
    + unfold responses in *. rewrite chronicle_cons. simpl.
      rewrite app_nil_r, IHresp, Hsame. done.
Qed.


(** [ServeHTTP] when the first backend attempt is the only one. *)
Lemma ServeHTTP_one_attempt rid p addr s :
  parse env = inr p ->
  LookupModel env (p_model p) (p_adapter p) (p_selectors p) = (true, None) ->
  ScaleAtLeastOneReplica env (p_model p) = None ->
  AwaitBestAddress env 0 {| Model := p_model p; Adapter := p_adapter p |}
  = (addr, None) ->
  attempt_once h env addr (awaited (entry rid p)) = Stop s ->
  ServeHTTP h env rid
  = Some (emit (MetricAdd (p_requestedModel p) (-1))
            (emit (DecrementInflight 0) s)).
Proof.
  intros Hparse Hlookup Hscale Hlb Hstop.
  assert (Hserve : ServeHTTP h env rid =
            option_map (emit (MetricAdd (p_requestedModel p) (-1)))
              (proxyHTTP (fuel_for h (entry rid p)) h env (entry rid p))).
  { unfold ServeHTTP. rewrite Hparse. simpl. rewrite Hlookup. simpl.
    by rewrite Hscale. }
  rewrite Hserve. unfold fuel_for. rewrite proxyHTTP_unfold.
  change (address_request (entry rid p))
    with {| Model := p_model p; Adapter := p_adapter p |}.
  change (lbCalls (entry rid p)) with O.
  by rewrite Hlb, Hstop.
Qed.

(** X1: when the load balancer always has an address, the context stays
    alive and every backend response is a retryable status (or there is
    no response at all), the handler sends exactly [maxRetries + 1]
    backend requests; the client gets the last response as it came, or
    502 when the last request got none. *)
Theorem retries_used_up rid p :
  0 <= maxRetries h <= GoInt.max_int ->
  parse env = inr p ->
  LookupModel env (p_model p) (p_adapter p) (p_selectors p) = (true, None) ->
  ScaleAtLeastOneReplica env (p_model p) = None ->
  (forall k req, snd (AwaitBestAddress env k req) = None) ->
  (forall n, ctxErr env n = None) ->
  (forall n addr sent code,
      RoundTrip env n addr sent = inl code -> isRetryCode h code = true) ->
  exists st,
    ServeHTTP h env rid = Some st /\
    length (backend_requests (log st)) = S (Z.to_nat (maxRetries h)) /\
    attempt (pr st) = maxRetries h /\
    responses (log st)
    = HandlerLog.final_answer h
        (RoundTrip env (Z.to_nat (maxRetries h))
           (fst (AwaitBestAddress env (Z.to_nat (maxRetries h))
                   (address_request st)))
           (p_body p))
        (maxRetries h).
Proof.
  intros Hbudget Hparse Hlookup Hscale Hlbok Hctx Hcodes.
  assert (Hmax : GoInt.in_range (maxRetries h)).
  { unfold GoInt.in_range, GoInt.min_int. lia. }
  destruct (ServeHTTP_proxies h env rid p Hmax Hparse Hlookup Hscale)
    as (st' & Hrun & Hst).
  eexists. split; [exact Hst|].
  destruct (proxied_requests h env _ _ _ Hrun) as (Hb & _).
  pose proof (Run_calls _ _ (fun k => Hlbok k _) Hrun) as Hcalls.
  destruct (Run_exhausts (entry rid p) st' Hmax) as (Hreqs & Hatt & Hresp);
    [simpl; unfold GoInt.min_int; lia | by intros | done | by eauto | done |].
  set (st := emit (MetricAdd (p_requestedModel p) (-1)) st') in *.
  cbn zeta in Hb. rewrite Hb, length_map, length_seq.
  change (backendReqs st) with (backendReqs st').
  change (attempt (pr st)) with (attempt (pr st')).
  change (address_request st) with (address_request st').
  change (attempt (pr (entry rid p))) with 0 in *.
  change (backendReqs (entry rid p)) with O in *.
  change (lbCalls (entry rid p)) with O in *.
  change (body (pr (entry rid p))) with (p_body p) in *.
  change (responses (log (entry rid p))) with (@nil event) in *.
  destruct (Run_log h env _ _ Hrun) as (_ & Hreq & _).
  rewrite Z.sub_0_r in Hreqs.
  assert (Hlast : responses (log st) = responses (log st')).
  { unfold responses. subst st. simpl. rewrite chronicle_cons. simpl.
    by rewrite app_nil_r. }
  rewrite Hlast, Hresp, Hatt, Hreq. simpl.
  replace (lbCalls st' - 1)%nat with (Z.to_nat (maxRetries h)) by lia.
  replace (backendReqs st' - 1)%nat with (Z.to_nat (maxRetries h)) by lia.
  split_and!; [lia|done|done].
Qed.

(** X2: a first backend response whose status is not a retry code goes
    to the client as it is: one backend request, the status recorded in
    the request, and the completion callback invoked once. *)
Theorem response_passes_through rid p addr code :
  parse env = inr p ->
  LookupModel env (p_model p) (p_adapter p) (p_selectors p) = (true, None) ->
  ScaleAtLeastOneReplica env (p_model p) = None ->
  AwaitBestAddress env 0 {| Model := p_model p; Adapter := p_adapter p |}
  = (addr, None) ->
  RoundTrip env 0 addr (p_body p) = inl code ->
  isRetryCode h code = false ->
  exists st,
    ServeHTTP h env rid = Some st /\
    backend_requests (log st) = [(addr, p_body p)] /\
    responses (log st) = [CopyResponse code] /\
    status (pr st) = code /\
    attempt (pr st) = 0 /\
    completions (log st) = [0%nat].
Proof.
  intros Hparse Hlookup Hscale Hlb Hrt Hcode.
  eexists. split.
  - eapply ServeHTTP_one_attempt; try done.
    unfold attempt_once, ModifyResponse. cbn. rewrite Hrt. cbn.
    rewrite Hcode. reflexivity.
  - by split_and!.
Qed.

(** X3: when the request context has failed by the time a retryable
    status arrives, the handler neither retries nor answers: the backend
    response is dropped and nothing is written to the client. *)
Theorem cancelled_request_is_not_retried rid p addr code err :
  parse env = inr p ->
  LookupModel env (p_model p) (p_adapter p) (p_selectors p) = (true, None) ->
  ScaleAtLeastOneReplica env (p_model p) = None ->
  AwaitBestAddress env 0 {| Model := p_model p; Adapter := p_adapter p |}
  = (addr, None) ->
  RoundTrip env 0 addr (p_body p) = inl code ->
  isRetryCode h code = true ->
  0 < maxRetries h ->
  ctxErr env 1 = Some err ->
  exists st,
    ServeHTTP h env rid = Some st /\
    backend_requests (log st) = [(addr, p_body p)] /\
    responses (log st) = [] /\
    attempt (pr st) = 0 /\
    completions (log st) = [0%nat].
Proof.
  intros Hparse Hlookup Hscale Hlb Hrt Hcode Hbudget Hctx.
  apply Z.ltb_lt in Hbudget.
  eexists. split.
  - eapply ServeHTTP_one_attempt; try done.
    unfold attempt_once, after_error, ErrorHandler, ModifyResponse.
    cbn -[Z.ltb]. rewrite Hrt. cbn -[Z.ltb].
    rewrite Hcode, Hbudget. cbn -[Z.ltb]. rewrite Hctx. cbn -[Z.ltb].
    reflexivity.
  - by split_and!.
Qed.

(** X4: with a load balancer that never fails, it is asked for an
    address exactly once per backend request. *)
Theorem one_address_per_backend_request rid :
  GoInt.in_range (maxRetries h) ->
  (forall k req, snd (AwaitBestAddress env k req) = None) ->
  exists st,
    ServeHTTP h env rid = Some st /\
    lbCalls st = length (backend_requests (log st)) /\
    await_calls (log st) = seq 0 (length (backend_requests (log st))).
Proof.
  intros Hmax Hlbok.
  destruct (ServeHTTP_cases h env rid Hmax)
    as [(st & Hst & Hatt & Hcalls & Hreqs & Hb & Ha & Hc & Hi)
       |(p & st' & Hrun & Hst)].
  - exists st. split; [done|]. by rewrite Hb, Ha, Hcalls.
  - eexists. split; [exact Hst|].
    destruct (proxied_requests h env _ _ _ Hrun) as (Hb & _ & Ha & _).
    pose proof (Run_calls _ _ (fun k => Hlbok k _) Hrun) as Hcalls.
    set (st := emit (MetricAdd (p_requestedModel p) (-1)) st') in *.
    cbn zeta in Hb, Ha. rewrite Hb, Ha, length_map, length_seq.
    change (lbCalls st) with (lbCalls st').
    change (backendReqs st) with (backendReqs st').
    simpl in Hcalls. rewrite Nat.add_0_r in Hcalls. by rewrite Hcalls.
Qed.

End HandlerMore.

Section HandlerBookkeeping.
Import Modelproxy.
Variables (h : Handler) (env : Env).

(** The four ways through [ServeHTTP], with the log of each early one. *)
Lemma ServeHTTP_paths rid :
  GoInt.in_range (maxRetries h) ->
  (exists err answer,
      parse env = inl err /\
      ServeHTTP h env rid
      = Some {| pr := newProxyRequest rid; lbCalls := O; backendReqs := O;
                log := [answer; SetHeader "X-Proxy" "lingo"] |} /\
      as_response answer = Some answer) \/
  (exists p answer,
      parse env = inr p /\
      (LookupModel env (p_model p) (p_adapter p) (p_selectors p)
       <> (true, None) \/
       ScaleAtLeastOneReplica env (p_model p) <> None) /\
      ServeHTTP h env rid
      = Some {| pr := apply_parsed p (newProxyRequest rid);
                lbCalls := O; backendReqs := O;
                log := MetricAdd (p_requestedModel p) (-1) :: answer
                         :: log (entry rid p) |} /\
      as_response answer = Some answer) \/
  (exists p st',
      parse env = inr p /\
      LookupModel env (p_model p) (p_adapter p) (p_selectors p) = (true, None) /\
      ScaleAtLeastOneReplica env (p_model p) = None /\
      Run h env (entry rid p) st' /\
      ServeHTTP h env rid
      = Some (emit (MetricAdd (p_requestedModel p) (-1)) st')).
Proof.
  intros Hmax.
  destruct (parse env) as [err|p] eqn:Hparse.
  { left. unfold ServeHTTP. rewrite Hparse. by eexists _, _. }
  right.
  destruct (LookupModel env (p_model p) (p_adapter p) (p_selectors p))
    as [modelExists [err|]] eqn:Hlookup.
  { left. unfold ServeHTTP. rewrite Hparse. simpl. rewrite Hlookup.
    eexists p, _. split_and!; [done|left; congruence|reflexivity|done]. }
  destruct modelExists.
  2:{ left. unfold ServeHTTP. rewrite Hparse. simpl. rewrite Hlookup.
      eexists p, _. split_and!; [done|left; congruence|reflexivity|done]. }
  destruct (ScaleAtLeastOneReplica env (p_model p)) as [err|] eqn:Hscale.
  { left. unfold ServeHTTP. rewrite Hparse. simpl. rewrite Hlookup. simpl.
    rewrite Hscale. eexists p, _. split_and!; [done|right; congruence|reflexivity|done]. }
  right. exists p.
  destruct (ServeHTTP_proxies h env rid p Hmax Hparse Hlookup Hscale)
    as (st' & Hrun & Hst).
  by exists st'.
Qed.

(** X5: the gauge of active requests is balanced on every path: once the
    model is parsed it goes up by one, and down by one as the last thing
    the handler does; a request that does not parse leaves it alone. *)
Theorem active_requests_balanced rid :
  GoInt.in_range (maxRetries h) ->
  exists st,
    ServeHTTP h env rid = Some st /\
    match parse env with
    | inl _ => HandlerLog.metrics (log st) = []
    | inr p =>
        HandlerLog.metrics (log st)
        = [(p_requestedModel p, 1); (p_requestedModel p, -1)] /\
        exists earlier,
          log st = MetricAdd (p_requestedModel p) (-1) :: earlier
    end.
Proof.
  intros Hmax.
  destruct (ServeHTTP_paths rid Hmax)
    as [(err & answer & Hparse & Hst & Hresp)
       |[(p & answer & Hparse & _ & Hst & Hresp)
        |(p & st' & Hparse & _ & _ & Hrun & Hst)]];
    rewrite Hparse; eexists; (split; [exact Hst|]).
  - unfold HandlerLog.metrics. simpl. rewrite !chronicle_cons. simpl.
    by destruct answer.
  - split; [|by eexists].
    unfold HandlerLog.metrics. simpl. rewrite !chronicle_cons. simpl.
    by destruct answer.
  - split; [|by eexists].
    unfold HandlerLog.metrics. simpl. rewrite chronicle_cons.
    by rewrite (Run_outside_proxy h env HandlerLog.as_metric _ _
                  ltac:(by intros []) Hrun).
Qed.


(** X7: without a retry budget ([maxRetries <= 0], negative values
    included) the handler never retries: at most one call of the load
    balancer, at most one backend request, and the counter stays 0. *)
Theorem no_budget_no_retry rid :
  GoInt.in_range (maxRetries h) ->
  maxRetries h <= 0 ->
  exists st,
    ServeHTTP h env rid = Some st /\
    (lbCalls st <= 1)%nat /\
    (length (backend_requests (log st)) <= 1)%nat /\
    increments (log st) = [] /\
    attempt (pr st) = 0.
Proof.
  intros Hmax Hnone.
  destruct (ServeHTTP_cases h env rid Hmax)
    as [(st & Hst & Hatt & Hcalls & Hreqs & Hb & Ha & Hc & Hi)
       |(p & st' & Hrun & Hst)].
  - exists st. split; [done|]. rewrite Hb, Hcalls, Hi. simpl. by split_and!; try lia.
  - eexists. split; [exact Hst|].
    destruct (proxied_requests h env _ _ _ Hrun) as (Hb & _).
    destruct (Run_attempt h env (entry rid p) st' Hmax)
      as (k & Hatt & Hk & Hinc & Hreqs);
      [simpl; unfold GoInt.min_int; lia | exact Hrun |].
    pose proof (Run_invocations h env (entry rid p) st' Hmax
                  ltac:(simpl; unfold GoInt.min_int; lia) Hrun) as Hcalls.
    set (st := emit (MetricAdd (p_requestedModel p) (-1)) st') in *.
    cbn zeta in Hb. rewrite Hb, length_map, length_seq.
    change (attempt (pr st)) with (attempt (pr st')).
    change (backendReqs st) with (backendReqs st') in *.
    change (lbCalls st) with (lbCalls st') in *.
    change (attempt (pr (entry rid p))) with 0 in *.
    change (backendReqs (entry rid p)) with O in *.
    change (lbCalls (entry rid p)) with O in *.
    assert (k = 0%nat) as -> by lia.
    assert (Hincs : increments (log st) = []).
    { unfold increments in *. subst st. simpl.
      rewrite chronicle_cons, Hinc. done. }
    split_and!; try done; lia.
Qed.

(** X8: the load balancer and the backend are reached only by a request
    whose model parsed, was found, and was scaled without error. *)
Theorem backend_behind_the_gates rid :
  GoInt.in_range (maxRetries h) ->
  exists st,
    ServeHTTP h env rid = Some st /\
    (lbCalls st <> O \/ backend_requests (log st) <> [] ->
     exists p,
       parse env = inr p /\
       LookupModel env (p_model p) (p_adapter p) (p_selectors p)
       = (true, None) /\
       ScaleAtLeastOneReplica env (p_model p) = None).
Proof.
  intros Hmax.
  destruct (ServeHTTP_paths rid Hmax)
    as [(err & answer & Hparse & Hst & Hresp)
       |[(p & answer & Hparse & _ & Hst & Hresp)
        |(p & st' & Hparse & Hlookup & Hscale & Hrun & Hst)]];
    eexists; (split; [exact Hst|]).
  - intros [Hcalls|Hreqs]; [done|]. exfalso. apply Hreqs.
    unfold backend_requests. simpl. rewrite !chronicle_cons. simpl.
    by destruct answer.
  - intros [Hcalls|Hreqs]; [done|]. exfalso. apply Hreqs.
    unfold backend_requests. simpl. rewrite !chronicle_cons. simpl.
    by destruct answer.
  - intros _. by exists p.
Qed.

(** X10: a request that reaches the load balancer has asked it exactly
    [attempt + 1] times when the handler returns: once for the first
    attempt and once for every retry. *)
Theorem one_address_per_attempt rid :
  GoInt.in_range (maxRetries h) ->
  exists st,
    ServeHTTP h env rid = Some st /\
    (lbCalls st <> O -> Z.of_nat (lbCalls st) = attempt (pr st) + 1).
Proof.
  intros Hmax.
  destruct (ServeHTTP_cases h env rid Hmax)
    as [(st & Hst & Hatt & Hcalls & _)|(p & st' & Hrun & Hst)].
  - exists st. split; [done|]. by rewrite Hcalls.
  - eexists. split; [exact Hst|]. intros _.
    pose proof (Run_invocations h env (entry rid p) st' Hmax
                  ltac:(simpl; unfold GoInt.min_int; lia) Hrun) as Hcalls.
    simpl in *. lia.
Qed.

End HandlerBookkeeping.

(** The mock of the handler test *)

Section HandlerTestFacts.
Import Modelproxy.

(** X9: the model client of the handler test finds a model exactly when
    it is registered and the adapter is empty or registered with [true]
    for it; it never returns an error. *)
Theorem test_LookupModel_finds t model adapter selector :
  snd (HandlerTest.LookupModel t model adapter selector) = None /\
  (fst (HandlerTest.LookupModel t model adapter selector) = true <->
   exists m,
     HandlerTest.models t !! model = Some m /\
     (adapter = "" \/
      exists known,
        HandlerTest.adapters m = Some known /\ known !! adapter = Some true)).
Proof.
  unfold HandlerTest.LookupModel.
  destruct (HandlerTest.models t !! model) as [m|] eqn:Hm.
  2:{ split; [done|]. split; [done|]. by intros (m & ? & _). }
  destruct (decide (adapter = "")) as [->|Hadapter].
  { split; [done|]. split; [|done]. intros _. exists m. by split; [|left]. }
  destruct (HandlerTest.adapters m) as [known|] eqn:Hknown.
  - split; [done|]. simpl. split.
    + intros Hfound. exists m. split; [done|]. right. exists known. split; [done|].
      destruct (known !! adapter) as [[]|]; done.
    + intros (m' & [= <-] & [?|(known' & Hk & Hfound)]); [done|].
      rewrite Hknown in Hk. injection Hk as <-. by rewrite Hfound.
  - split; [done|]. simpl. split; [done|].
    intros (m' & [= <-] & [?|(known' & Hk & _)]); [done|].
    by rewrite Hknown in Hk.
Qed.

End HandlerTestFacts.

(** *** The handler test, replayed *)

Lemma h3_in_range : GoInt.in_range (Modelproxy.maxRetries Scenario.h3).
Proof. unfold GoInt.in_range, GoInt.min_int, GoInt.max_int. simpl. lia. Qed.

(** A backend that always answers 500: four requests, then the 500. *)
Lemma retries_used_up_witness :
  exists st,
    Modelproxy.ServeHTTP Scenario.h3
      (HandlerTest.env HandlerTest.mock (inr HandlerTest.request_model1)
         (HandlerTest.backend_answers 500) HandlerTest.alive) "r1"
    = Some st /\
    length (Modelproxy.backend_requests (Modelproxy.log st)) = 4%nat /\
    Modelproxy.responses (Modelproxy.log st) = [Modelproxy.CopyResponse 500].
Proof.
  destruct (retries_used_up Scenario.h3
              (HandlerTest.env HandlerTest.mock (inr HandlerTest.request_model1)
                 (HandlerTest.backend_answers 500) HandlerTest.alive)
              "r1" HandlerTest.request_model1)
    as (st & Hst & Hreqs & _ & Hresp).
  - unfold GoInt.max_int. simpl. lia.
  - reflexivity.
  - vm_compute. reflexivity.
  - reflexivity.
  - reflexivity.
  - reflexivity.
  - intros n addr sent code [= <-]. vm_compute. reflexivity.
  - exists st. split; [exact Hst|]. split; [exact Hreqs|exact Hresp].
Defined.

(** A backend that answers 400: passed on after one request. *)
Lemma response_passes_through_witness :
  exists st,
    Modelproxy.ServeHTTP Scenario.h3
      (HandlerTest.env HandlerTest.mock (inr HandlerTest.request_model1)
         (HandlerTest.backend_answers 400) HandlerTest.alive) "r1"
    = Some st /\
    Modelproxy.responses (Modelproxy.log st) = [Modelproxy.CopyResponse 400] /\
    Modelproxy.status (Modelproxy.pr st) = 400.
Proof.
  destruct (response_passes_through Scenario.h3
              (HandlerTest.env HandlerTest.mock (inr HandlerTest.request_model1)
                 (HandlerTest.backend_answers 400) HandlerTest.alive)
              "r1" HandlerTest.request_model1 "127.0.0.1:8000" 400)
    as (st & Hst & _ & Hresp & Hstatus & _).
  - reflexivity.
  - vm_compute. reflexivity.
  - reflexivity.
  - reflexivity.
  - reflexivity.
  - vm_compute. reflexivity.
  - exists st. split; [exact Hst|]. split; [exact Hresp|exact Hstatus].
Defined.

(** A 503 for a client that has gone away: one request, no answer. *)
Lemma cancelled_request_is_not_retried_witness :
  exists st,
    Modelproxy.ServeHTTP Scenario.h3
      (HandlerTest.env HandlerTest.mock (inr HandlerTest.request_model1)
         (HandlerTest.backend_answers 503) HandlerTest.cancelled) "r1"
    = Some st /\
    length (Modelproxy.backend_requests (Modelproxy.log st)) = 1%nat /\
    Modelproxy.responses (Modelproxy.log st) = [].
Proof.
  destruct (cancelled_request_is_not_retried Scenario.h3
              (HandlerTest.env HandlerTest.mock (inr HandlerTest.request_model1)
                 (HandlerTest.backend_answers 503) HandlerTest.cancelled)
              "r1" HandlerTest.request_model1 "127.0.0.1:8000" 503
              context_Canceled)
    as (st & Hst & Hreqs & Hresp & _).
  - reflexivity.
  - vm_compute. reflexivity.
  - reflexivity.
  - reflexivity.
  - reflexivity.
  - vm_compute. reflexivity.
  - simpl. lia.
  - reflexivity.
  - exists st. split; [exact Hst|]. split; [by rewrite Hreqs|exact Hresp].
Defined.

(** The dropped connection: four calls of the mock for four requests. *)
Lemma one_address_per_backend_request_witness :
  exists st,
    Modelproxy.ServeHTTP Scenario.h3 Scenario.dropped_connection "r1" = Some st /\
    Modelproxy.lbCalls st
    = length (Modelproxy.backend_requests (Modelproxy.log st)).
Proof.
  destruct (one_address_per_backend_request Scenario.h3
              Scenario.dropped_connection "r1" h3_in_range)
    as (st & Hst & Hcalls & _).
  - reflexivity.
  - exists st. by split.
Defined.

Lemma active_requests_balanced_witness :
  exists st,
    Modelproxy.ServeHTTP Scenario.h3 Scenario.dropped_connection "r1" = Some st /\
    HandlerLog.metrics (Modelproxy.log st) = [("m1", 1); ("m1", -1)].
Proof.
  destruct (active_requests_balanced Scenario.h3 Scenario.dropped_connection
              "r1" h3_in_range) as (st & Hst & Hmetrics & _).
  exists st. by split.
Defined.


(** No retries allowed: the dropped connection is tried once. *)
Lemma no_budget_no_retry_witness :
  exists st,
    Modelproxy.ServeHTTP HandlerTest.h0 Scenario.dropped_connection "r1"
    = Some st /\
    (length (Modelproxy.backend_requests (Modelproxy.log st)) <= 1)%nat.
Proof.
  destruct (no_budget_no_retry HandlerTest.h0 Scenario.dropped_connection "r1")
    as (st & Hst & _ & Hreqs & _).
  - unfold GoInt.in_range, GoInt.min_int, GoInt.max_int. simpl. lia.
  - simpl. lia.
  - exists st. by split.
Defined.

(** An unknown model never gets as far as the load balancer. *)
Lemma backend_behind_the_gates_witness :
  exists st,
    Modelproxy.ServeHTTP Scenario.h3
      (HandlerTest.env HandlerTest.mock
         (inr {| Modelproxy.p_requestedModel := "does-not-exist";
                 Modelproxy.p_model := "does-not-exist";
                 Modelproxy.p_adapter := ""; Modelproxy.p_selectors := [];
                 Modelproxy.p_body := "{}" |})
         (HandlerTest.backend_answers 200) HandlerTest.alive) "r1"
    = Some st /\
    Modelproxy.lbCalls st = O.
Proof.
  destruct (backend_behind_the_gates Scenario.h3
      (HandlerTest.env HandlerTest.mock
         (inr {| Modelproxy.p_requestedModel := "does-not-exist";
                 Modelproxy.p_model := "does-not-exist";
                 Modelproxy.p_adapter := ""; Modelproxy.p_selectors := [];
                 Modelproxy.p_body := "{}" |})
         (HandlerTest.backend_answers 200) HandlerTest.alive) "r1"
      h3_in_range) as (st & Hst & Hgates).
  exists st. split; [exact Hst|].
  destruct (Modelproxy.lbCalls st) eqn:Hcalls; [done|].
  destruct Hgates as (p & Hparse & Hlookup & _); [by left|].
  injection Hparse as <-. vm_compute in Hlookup. discriminate Hlookup.
Defined.

Lemma one_address_per_attempt_witness :
  exists st,
    Modelproxy.ServeHTTP Scenario.h3 Scenario.dropped_connection "r1" = Some st /\
    Z.of_nat (Modelproxy.lbCalls st)
    = Modelproxy.attempt (Modelproxy.pr st) + 1.
Proof.
  destruct (one_address_per_attempt Scenario.h3 Scenario.dropped_connection
              "r1" h3_in_range) as (st & Hst & Hcalls).
  exists st. split; [exact Hst|]. apply Hcalls.
  pose proof Hst as Hval. vm_compute in Hval. injection Hval as <-. done.
Defined.

(** ** More on the message handler *)

Section HandlerOfMessages.
Import Messenger.
Variables (J : Json) (env : Env).

Lemma final_deferred f o : final (deferred f o) = f (final o).
Proof. by destruct o. Qed.

(** [sendResponse] logs publishing, Ack and Nack, and nothing else. *)
Lemma sendResponse_beside {A} (pick : event -> option A) req b code st :
  MessengerLog.beside_delivery pick ->
  omap pick (rev (log (final (sendResponse J env req b code st))))
  = omap pick (rev (log st)).
Proof.
  intros Hpick.
  assert (Hcons : forall e l,
    match e with Publish _ _ _ | Ack _ | Nack _ => True | _ => False end ->
    omap pick (rev (e :: l)) = omap pick (rev l)).
  { intros e l He. simpl. rewrite omap_app. simpl. specialize (Hpick e).
    destruct e; try done; by rewrite Hpick, app_nil_r. }
  unfold sendResponse. destruct req as [r|]; [|done].
  destruct (Marshal_response J _) as [err|text];
    destruct (Send env _ _) as [err'|];
    try destruct (Nackable (msg r));
    try destruct (code <? 300);
    cbn [final log emit addConsecutiveError resetConsecutiveErrors];
    rewrite ?Hcons by done; done.
Qed.

(** Everything a handler logs beside the delivery of its response: the
    gauge, the scale request, the post to the backend and the completion
    callback, each depending on how far the message got. *)
Lemma handleRequest_beside {A} (pick : event -> option A) m st :
  MessengerLog.beside_delivery pick ->
  omap pick (rev (log (final (handleRequest J env m st))))
  = omap pick (rev (log st))
    ++ match parseRequest J m with
       | (Some r, None) =>
           MessengerLog.picked pick (MetricAdd (model r) 1)
           ++ match LookupModel env (model r) (adapter r) with
              | (true, None) =>
                  MessengerLog.picked pick (ScaleRequested (model r))
                  ++ match AwaitBestAddress env
                             {| Modelproxy.Model := model r;
                                Modelproxy.Adapter := adapter r |} with
                     | (host, None) =>
                         MessengerLog.picked pick
                           (BackendPost ("http://" +:+ host +:+ path r) (body r))
                         ++ MessengerLog.picked pick Complete
                     | (_, Some _) => []
                     end
              | _ => []
              end
           ++ MessengerLog.picked pick (MetricAdd (model r) (-1))
       | _ => []
       end.
Proof.
  intros Hpick.
  assert (Hcons : forall e l,
    omap pick (rev (e :: l)) = omap pick (rev l) ++ MessengerLog.picked pick e).
  { intros e l. simpl. rewrite omap_app. simpl. unfold MessengerLog.picked.
    by destruct (pick e). }
  unfold handleRequest, jsonError.
  destruct (parseRequest J m) as [req [err|]].
  { rewrite (sendResponse_beside pick) by done. simpl.
    destruct req; by rewrite app_nil_r. }
  destruct req as [r|]; [|by rewrite app_nil_r].
  rewrite final_deferred.
  destruct (LookupModel env (model r) (adapter r)) as [modelExists [err|]].
  { cbn [log emit]. rewrite Hcons, (sendResponse_beside pick) by done.
    cbn [log addConsecutiveError emit]. rewrite Hcons.
    destruct modelExists; by rewrite <- !app_assoc. }
  destruct modelExists; cbn [negb].
  2:{ cbn [log emit]. rewrite Hcons, (sendResponse_beside pick) by done.
      cbn [log addConsecutiveError emit]. rewrite Hcons.
      by rewrite <- !app_assoc. }
  destruct (AwaitBestAddress env _) as [host [err|]].
  { cbn [log emit]. rewrite Hcons, (sendResponse_beside pick) by done.
    cbn [log addConsecutiveError emit]. rewrite !Hcons.
    by rewrite app_nil_r, <- !app_assoc. }
  rewrite final_deferred. cbn [log emit]. rewrite !Hcons.
  destruct (sendBackendRequest env _ (body r)) as [[respPayload respCode] [err|]];
    rewrite (sendResponse_beside pick) by done;
    cbn [log addConsecutiveError emit]; rewrite !Hcons;
    by rewrite <- !app_assoc.
Qed.



(** X12: the completion callback of the load balancer is invoked
    exactly once by a handler that was handed an address, also when the
    backend cannot be reached or the response cannot be published, and
    never by a handler that was not. *)
Theorem completion_called_when_routed m st :
  exists new,
    MessengerLog.completes (log (final (handleRequest J env m st)))
    = MessengerLog.completes (log st) ++ new /\
    (new = [] \/ new = [tt]) /\
    (new = [tt] <-> exists r host, MessengerLog.routed J env m r host).
Proof.
  unfold MessengerLog.completes, MessengerLog.routed.
  rewrite (handleRequest_beside MessengerLog.as_complete) by (by intros []).
  eexists. split; [reflexivity|].
  destruct (parseRequest J m) as [[r|] [err|]]; cbn;
    try (split; [by left|]; split; [done | by intros (? & ? & ? & _)]).
  destruct (LookupModel env (model r) (adapter r)) as [[] [err|]] eqn:Hlookup;
    cbn;
    try (split; [by left|]; split;
         [done | intros (r' & ? & [= <-] & ? & _); congruence]).
  destruct (AwaitBestAddress env _) as [host [err|]] eqn:Hlb; cbn.
  - split; [by left|]. split; [done|].
    intros (r' & host' & [= <-] & _ & Hlb'). congruence.
  - split; [by right|]. split; [|done]. intros _. by exists r, host.
Qed.

(** X13: a handler raises the gauge of active requests by one for the
    model of a message that parsed, and lowers it by one when it is done,
    whatever happens in between; a message that does not parse leaves the
    gauge alone. *)
Theorem message_gauge_balanced m st :
  MessengerLog.metrics (log (final (handleRequest J env m st)))
  = MessengerLog.metrics (log st)
    ++ match parseRequest J m with
       | (Some r, None) => [(model r, 1); (model r, -1)]
       | _ => []
       end.
Proof.
  unfold MessengerLog.metrics.
  rewrite (handleRequest_beside MessengerLog.as_metric) by (by intros []).
  f_equal.
  destruct (parseRequest J m) as [[r|] [err|]]; try done. cbn.
  destruct (LookupModel env (model r) (adapter r)) as [[] [err|]]; try done.
  by destruct (AwaitBestAddress env _) as [host [err|]].
Qed.

(** The counter after [sendResponse]: reset, or up by at most two. *)
Lemma sendResponse_counter req b code st :
  let c := consecutiveErrors st in
  let c' := consecutiveErrors (final (sendResponse J env req b code st)) in
  c' = 0 \/ c' = c \/ c' = GoInt.incr c \/ c' = GoInt.incr (GoInt.incr c).
Proof.
  unfold sendResponse. destruct req as [r|]; [|by right; left].
  destruct (Marshal_response J _) as [err|text];
    destruct (Send env _ _) as [err'|];
    try destruct (Nackable (msg r));
    try destruct (code <? 300); cbn; tauto.
Qed.

Lemma handleRequest_counter m st :
  let c := consecutiveErrors st in
  let c' := consecutiveErrors (final (handleRequest J env m st)) in
  c' = 0 \/ c' = c \/ c' = GoInt.incr c \/ c' = GoInt.incr (GoInt.incr c)
  \/ c' = GoInt.incr (GoInt.incr (GoInt.incr c)).
Proof.
  assert (Hdefer : forall e o,
    consecutiveErrors (final (deferred (emit e) o)) = consecutiveErrors (final o)).
  { by intros e []. }
  unfold handleRequest, jsonError. cbn zeta.
  destruct (parseRequest J m) as [req [err|]].
  { pose proof (sendResponse_counter req
      (error_body J ("error parsing request: " +:+ Error err))
      StatusBadRequest (addConsecutiveError st)) as H.
    cbn in H. tauto. }
  destruct req as [r|]; [|cbn; tauto].
  rewrite Hdefer.
  destruct (LookupModel env (model r) (adapter r)) as [modelExists [err|]].
  { match goal with |- context [sendResponse J env ?q ?b ?k ?s] =>
      pose proof (sendResponse_counter q b k s) as H end.
    cbn in H. tauto. }
  destruct modelExists; cbn [negb].
  2:{ match goal with |- context [sendResponse J env ?q ?b ?k ?s] =>
        pose proof (sendResponse_counter q b k s) as H end.
      cbn in H. tauto. }
  destruct (AwaitBestAddress env _) as [host [err|]].
  { match goal with |- context [sendResponse J env ?q ?b ?k ?s] =>
      pose proof (sendResponse_counter q b k s) as H end.
    cbn in H. tauto. }
  rewrite Hdefer.
  destruct (sendBackendRequest env _ (body r)) as [[respPayload respCode] [err|]];
    match goal with |- context [sendResponse J env ?q ?b ?k ?s] =>
      pose proof (sendResponse_counter q b k s) as H end;
    cbn in H; tauto.
Qed.

(** X14: handling one message resets the counter of consecutive errors
    to zero or raises it by at most three (the error itself, a response
    that cannot be marshalled, a publish that fails); it never lowers it
    otherwise. *)
Theorem counter_moves_by_three m st :
  0 <= consecutiveErrors st ->
  consecutiveErrors st + 3 <= GoInt.max_int ->
  let c' := consecutiveErrors (final (handleRequest J env m st)) in
  c' = 0 \/ consecutiveErrors st <= c' <= consecutiveErrors st + 3.
Proof.
  intros Hpos Hfit c'.
  pose proof (handleRequest_counter m st) as Hc. cbn zeta in Hc. fold c' in Hc.
  assert (H1 : GoInt.incr (consecutiveErrors st) = consecutiveErrors st + 1).
  { apply incr_no_overflow. unfold GoInt.min_int, GoInt.max_int in *. lia. }
  assert (H2 : GoInt.incr (consecutiveErrors st + 1) = consecutiveErrors st + 2).
  { rewrite incr_no_overflow; unfold GoInt.min_int, GoInt.max_int in *; lia. }
  assert (H3 : GoInt.incr (consecutiveErrors st + 2) = consecutiveErrors st + 3).
  { rewrite incr_no_overflow; unfold GoInt.min_int, GoInt.max_int in *; lia. }
  rewrite H1, H2, H3 in Hc. lia.
Qed.

Lemma parseRequest_nil_has_error m e : parseRequest J m = (None, e) -> e <> None.
Proof.
  unfold parseRequest.
  destruct (Unmarshal_payload J (Body m)) as [err|p]; [done|].
  destruct (Unmarshal_map J (payload_Body p)) as [err|fields]; [by intros [= <-]|].
  destruct (fields !! "model") as [[| | |s| |]|]; try by intros [= <-].
  destruct (Apiutils.SplitModelAdapter s) as [mdl adp].
  destruct (decide (adp <> "")); [|done].
  destruct (Marshal_map J _); [by intros [= <-]|done].
Qed.

(** With a request in hand the handler returns. *)
Lemma handleRequest_returns m st r e :
  parseRequest J m = (Some r, e) ->
  exists s, handleRequest J env m st = Returned s.
Proof.
  intros Hparse.
  assert (Hret : forall o ev, (exists s', o = Returned s') ->
            exists s', deferred (emit ev) o = Returned s').
  { intros o ev [s' ->]. by eexists. }
  assert (Hsend : forall b code s0,
            exists s', sendResponse J env (Some r) b code s0 = Returned s').
  { intros b code s0.
    destruct (sendResponse_settled J env r b code s0) as (s' & Hs' & _).
    by exists s'. }
  unfold handleRequest, jsonError. rewrite Hparse.
  destruct e as [err|]; [apply Hsend|].
  apply Hret.
  destruct (LookupModel env (model r) (adapter r)) as [[] [err|]];
    try apply Hsend.
  cbn [negb].
  destruct (AwaitBestAddress env _) as [host [err|]]; [apply Hsend|].
  apply Hret. cbn zeta.
  destruct (sendBackendRequest env _ (body r)) as [[pl cd] [err|]];
    apply Hsend.
Qed.

(** X15: the handler panics exactly when the envelope of the message
    decodes and [parseRequest] fails nevertheless; with any other message
    it returns. *)
Theorem handler_panics_iff m st :
  (exists s, handleRequest J env m st = Panicked s) <->
  (exists p, Unmarshal_payload J (Body m) = inr p) /\
  snd (parseRequest J m) <> None.
Proof.
  split.
  - intros [s Hpanic].
    destruct (parseRequest J m) as [[r|] e] eqn:Hparse.
    { destruct (handleRequest_returns m st r e Hparse) as [s' Hs'].
      congruence. }
    split; [|by apply parseRequest_nil_has_error in Hparse].
    unfold parseRequest in Hparse.
    destruct (Unmarshal_payload J (Body m)) as [err|p]; [done|by exists p].
  - intros [[p Hp] Herr].
    destruct (parseRequest J m) as [req [err|]] eqn:Hparse; [|done].
    pose proof (parseRequest_error_nil J m p req err Hp Hparse) as ->.
    eexists. by apply (handleRequest_nil_request J env m st err).
Qed.


Lemma sendResponse_published r b code st :
  published (log (final (sendResponse J env (Some r) b code st)))
  = published (log st)
      ++ [{| response_Metadata := metadata r; response_StatusCode := code;
             response_Body := b |}].
Proof.
  destruct (sendResponse_settled J env r b code st) as (st' & -> & Hpub & _).
  exact Hpub.
Qed.

(** X21: the status of the response to a message: 400 when the message
    is not JSON, 500 when the lookup fails, 404 for an unknown model, 502
    when no address can be had or the backend cannot be reached or read,
    and the status of the backend otherwise.  The metadata of the request
    is echoed; the outcome of the scale request plays no part. *)
Theorem message_status_mapping m st r e :
  parseRequest J m = (Some r, e) ->
  exists resp,
    published (log (final (handleRequest J env m st)))
    = published (log st) ++ [resp] /\
    response_Metadata resp = metadata r /\
    response_StatusCode resp =
      match e with
      | Some _ => StatusBadRequest
      | None =>
          match LookupModel env (model r) (adapter r) with
          | (_, Some _) => StatusInternalServerError
          | (false, None) => StatusNotFound
          | (true, None) =>
              match AwaitBestAddress env
                      {| Modelproxy.Model := model r;
                         Modelproxy.Adapter := adapter r |} with
              | (_, Some _) => StatusBadGateway
              | (host, None) =>
                  match sendBackendRequest env
                          ("http://" +:+ host +:+ path r) (body r) with
                  | (_, _, Some _) => StatusBadGateway
                  | (_, code, None) => code
                  end
              end
          end
      end.
Proof.
  intros Hparse. unfold handleRequest, jsonError. rewrite Hparse.
  destruct e as [err|].
  { eexists. rewrite sendResponse_published. by split_and!. }
  rewrite final_deferred. cbn [log emit]. rewrite published_cons. cbn [as_published].
  rewrite app_nil_r.
  destruct (LookupModel env (model r) (adapter r)) as [[] [err|]].
  1,3,4: (cbn [negb]; eexists; rewrite sendResponse_published;
          cbn [log emit addConsecutiveError]; rewrite published_cons; cbn [as_published];
          rewrite app_nil_r; by split_and!).
  cbn [negb].
  destruct (AwaitBestAddress env _) as [host [err|]].
  { eexists. rewrite sendResponse_published.
    cbn [log emit addConsecutiveError]. rewrite !published_cons. cbn [as_published].
    rewrite !app_nil_r. by split_and!. }
  rewrite final_deferred. cbn [log emit]. rewrite published_cons. cbn [as_published].
  rewrite app_nil_r. cbn zeta.
  destruct (sendBackendRequest env _ (body r)) as [[respPayload respCode] [err|]];
    eexists; rewrite sendResponse_published;
    cbn [log emit addConsecutiveError]; rewrite !published_cons; cbn [as_published];
    rewrite !app_nil_r; by split_and!.
Qed.

End HandlerOfMessages.

(** ** More on the receive loop *)

Section ReceiveLoop.
Import Messenger.
Variable cfg : Config.

Lemma restarts_cons e trace :
  restarts (e :: trace)
  = ((if is_restart e then 1 else 0) + restarts trace)%nat.
Proof.
  unfold restarts. rewrite filter_cons.
  destruct (decide (is_restart e = true)) as [->|Hno]; [done|].
  by destruct (is_restart e).
Qed.

Lemma restarts_app t1 t2 :
  restarts (t1 ++ t2) = (restarts t1 + restarts t2)%nat.
Proof. unfold restarts. by rewrite filter_app, length_app. Qed.

Lemma restarts_rev trace : restarts (rev trace) = restarts trace.
Proof.
  induction trace as [|e trace IH]; [done|].
  simpl. rewrite restarts_app, IH, !restarts_cons. unfold restarts at 2. simpl. lia.
Qed.

(** The backoff after errors never exceeds its cap, whatever the count. *)
Lemma consecutiveErrBackoff_capped n max : consecutiveErrBackoff n max <= max.
Proof.
  unfold consecutiveErrBackoff.
  destruct (Z.gtb_spec (GoInt.mul n Second) max); lia.
Qed.

(** In a streak of failures the counter of restarts stays within 21. *)
Lemma recvLoop_streak_bound schedule : forall restartAttempt trace,
  forallb MessengerLog.is_failure schedule = true ->
  0 <= restartAttempt <= 21 ->
  (restarts (snd (recvLoop cfg schedule restartAttempt trace))
     + Z.to_nat restartAttempt
   <= restarts trace + 21)%nat.
Proof.
  induction schedule as [|[err shutdownErr subErr|m ctxDone n] schedule IH];
    intros restartAttempt trace Hfail Hatt; simpl in Hfail; [| |done].
  { cbn [recvLoop snd]. lia. }
  cbn [recvLoop].
  destruct (errors_Is err IsCanceled); [cbn [snd]; lia|].
  destruct (Z.gtb_spec restartAttempt maxRestartAttempts) as [Hgt|Hle];
    [cbn [snd]; lia|].
  unfold maxRestartAttempts in Hle.
  destruct subErr as [e|].
  - cbn [snd]. rewrite !restarts_cons. simpl. lia.
  - assert (Hincr : GoInt.incr restartAttempt = restartAttempt + 1).
    { apply incr_no_overflow. unfold GoInt.min_int, GoInt.max_int. lia. }
    rewrite Hincr.
    match goal with
    | |- context [recvLoop cfg schedule ?ra ?t] =>
        pose proof (IH ra t) as IH'
    end.
    rewrite !restarts_cons in IH'. simpl in IH'.
    assert (Hrest : forallb MessengerLog.is_failure schedule = true).
    { done. }
    specialize (IH' Hrest ltac:(lia)). lia.
Qed.

(** X16: however long [Receive] keeps failing, the subscription is
    recreated at most 21 times before a message arrives or [Start]
    returns. *)
Theorem restart_streak_bounded schedule :
  forallb MessengerLog.is_failure schedule = true ->
  (restarts (snd (Start cfg schedule)) <= 21)%nat.
Proof.
  intros Hfail. unfold Start.
  pose proof (recvLoop_streak_bound schedule 0 [] Hfail ltac:(lia)) as Hbound.
  destruct (recvLoop cfg schedule 0 []) as [r trace]. cbn [snd] in *.
  rewrite restarts_rev. change (restarts []) with O in Hbound. lia.
Qed.

(** X17: the loop never sleeps longer than the larger of its two caps:
    ten seconds between restarts and [ErrorMaxBackoff] after errors of the
    handlers, whatever the counters read. *)
Theorem sleeps_are_capped schedule :
  Forall (fun d => d <= Z.max maxRestartBackoff (ErrorMaxBackoff cfg))
         (MessengerLog.sleeps (snd (Start cfg schedule))).
Proof.
  set (cap := Z.max maxRestartBackoff (ErrorMaxBackoff cfg)).
  set (fine := fun e => match e with Sleep d => d <= cap | _ => True end).
  assert (Hloop : forall s restartAttempt trace,
    Forall fine trace ->
    Forall fine (snd (recvLoop cfg s restartAttempt trace))).
  { induction s as [|[err shutdownErr subErr|m ctxDone n] s IH];
      intros restartAttempt trace Htrace; simpl; [done| |].
    - destruct (errors_Is err IsCanceled); [done|].
      destruct (restartAttempt >? maxRestartAttempts); [done|].
      assert (Hnext : Forall fine
        (OpenSubscription (requestsURL cfg)
           :: Sleep (Z.min (GoInt.mul restartAttempt Second) maxRestartBackoff)
           :: Shutdown :: trace)).
      { repeat constructor; try done. simpl. subst cap. lia. }
      destruct subErr; [done|]. by apply IH.
    - destruct ctxDone; [by constructor|].
      apply IH. destruct (n >? 0); repeat constructor; try done.
      simpl. subst cap.
      pose proof (consecutiveErrBackoff_capped n (ErrorMaxBackoff cfg)). lia. }
  unfold Start. specialize (Hloop schedule 0 [] ltac:(constructor)).
  destruct (recvLoop cfg schedule 0 []) as [r trace]. simpl in *.
  unfold MessengerLog.sleeps.
  apply Forall_forall. intros d Hd.
  apply list_elem_of_omap in Hd as (e & He & Hsleep).
  rewrite Forall_forall in Hloop.
  assert (Hin : e ∈ trace).
  { apply list_elem_of_In. apply in_rev. by apply list_elem_of_In. }
  specialize (Hloop e Hin). unfold fine in Hloop.
  destruct e; simpl in *; simplify_eq. exact Hloop.
Qed.

(** X18: messages are dispatched in the order they are received, none
    is skipped and none is dispatched twice; as long as the loop is
    receiving, every message it got has been dispatched. *)
Theorem dispatch_in_order schedule :
  MessengerLog.dispatched (snd (Start cfg schedule))
    `prefix_of` MessengerLog.received schedule /\
  (forall restartAttempt,
      fst (Start cfg schedule) = Receiving restartAttempt ->
      MessengerLog.dispatched (snd (Start cfg schedule))
      = MessengerLog.received schedule).
Proof.
  assert (Hloop : forall s restartAttempt trace,
    exists new,
      MessengerLog.dispatched (rev (snd (recvLoop cfg s restartAttempt trace)))
      = MessengerLog.dispatched (rev trace) ++ new /\
      new `prefix_of` MessengerLog.received s /\
      (forall ra, fst (recvLoop cfg s restartAttempt trace) = Receiving ra ->
                  new = MessengerLog.received s)).
  { assert (Hcons : forall e t,
      MessengerLog.dispatched (rev (e :: t))
      = MessengerLog.dispatched (rev t)
          ++ match MessengerLog.as_dispatch e with Some m => [m] | None => [] end).
    { intros e t. unfold MessengerLog.dispatched. simpl. rewrite omap_app.
      simpl. by destruct (MessengerLog.as_dispatch e). }
    induction s as [|[err shutdownErr subErr|m ctxDone n] s IH];
      intros restartAttempt trace; cbn [recvLoop].
    - exists []. cbn [fst snd]. by rewrite app_nil_r.
    - destruct (errors_Is err IsCanceled).
      { exists []. cbn [fst snd]. rewrite app_nil_r. split_and!; try done.
        apply prefix_nil. }
      destruct (restartAttempt >? maxRestartAttempts).
      { exists []. cbn [fst snd]. rewrite app_nil_r. split_and!; try done.
        apply prefix_nil. }
      destruct subErr as [e|].
      { exists []. cbn [fst snd]. rewrite !Hcons. simpl. rewrite !app_nil_r.
        split_and!; try done. apply prefix_nil. }
      destruct (IH (GoInt.incr restartAttempt)
                  (OpenSubscription (requestsURL cfg)
                     :: Sleep (Z.min (GoInt.mul restartAttempt Second)
                                 maxRestartBackoff)
                     :: Shutdown :: trace)) as (new & Hnew & Hpre & Hall).
      exists new. rewrite Hnew, !Hcons. cbn [MessengerLog.as_dispatch].
      by rewrite !app_nil_r.
    - destruct ctxDone.
      { exists []. cbn [fst snd]. rewrite Hcons. simpl. rewrite !app_nil_r.
        split_and!; try done. apply prefix_nil. }
      destruct (IH 0 (if n >? 0
                      then Sleep (consecutiveErrBackoff n (ErrorMaxBackoff cfg))
                             :: Dispatch m :: trace
                      else Dispatch m :: trace)) as (new & Hnew & Hpre & Hall).
      exists (m :: new). rewrite Hnew. split_and!.
      + destruct (n >? 0); rewrite !Hcons; cbn [MessengerLog.as_dispatch];
          by rewrite ?app_nil_r, <- app_assoc.
      + cbn. by apply prefix_cons.
      + intros ra Hra. cbn. f_equal. by eapply Hall. }
  unfold Start. destruct (Hloop schedule 0 []) as (new & Hnew & Hpre & Hall).
  destruct (recvLoop cfg schedule 0 []) as [r trace]. cbn [fst snd] in *.
  rewrite Hnew. split; [done|]. intros ra ->. by eapply Hall.
Qed.


(** A streak of failures with restarts left for each of them. *)
Lemma recvLoop_failures err n : forall rest restartAttempt trace,
  errors_Is err IsCanceled = false ->
  0 <= restartAttempt ->
  restartAttempt + Z.of_nat n <= 21 ->
  exists trace',
    recvLoop cfg (MessengerLog.failures err n ++ rest) restartAttempt trace
    = recvLoop cfg rest (restartAttempt + Z.of_nat n) trace' /\
    restarts trace' = (restarts trace + n)%nat /\
    MessengerLog.dispatched (rev trace') = MessengerLog.dispatched (rev trace).
Proof.
  induction n as [|n IH]; intros rest restartAttempt trace Herr Hpos Hfit.
  - exists trace. simpl. rewrite Z.add_0_r. by split_and!; try lia.
  - cbn [MessengerLog.failures repeat app].
    rewrite recvLoop_restart by (unfold maxRestartAttempts; lia || done).
    destruct (IH rest (restartAttempt + 1)
                (OpenSubscription (requestsURL cfg)
                   :: Sleep (Z.min (restartAttempt * Second) (10 * Second))
                   :: Shutdown :: trace) Herr ltac:(lia) ltac:(lia))
      as (trace' & Hrun & Hrestarts & Hdisp).
    exists trace'. split_and!.
    + unfold MessengerLog.failures in Hrun. rewrite Hrun. f_equal. lia.
    + rewrite Hrestarts, !restarts_cons. simpl. lia.
    + rewrite Hdisp. unfold MessengerLog.dispatched. simpl.
      rewrite !omap_app. simpl. by rewrite !app_nil_r.
Qed.

(** X20: the budget of restarts is per streak of failures: a received
    message makes it whole again.  Twenty-one failures and a message,
    over and over, never end the loop; every message is dispatched. *)
Theorem restart_budget_is_per_streak err m rounds :
  errors_Is err IsCanceled = false ->
  fst (Start cfg (MessengerLog.flaky err m rounds)) = Receiving 0 /\
  restarts (snd (Start cfg (MessengerLog.flaky err m rounds)))
  = (21 * rounds)%nat /\
  MessengerLog.dispatched (snd (Start cfg (MessengerLog.flaky err m rounds)))
  = repeat m rounds.
Proof.
  intros Herr.
  assert (Hloop : forall trace,
    fst (recvLoop cfg (MessengerLog.flaky err m rounds) 0 trace) = Receiving 0 /\
    restarts (snd (recvLoop cfg (MessengerLog.flaky err m rounds) 0 trace))
    = (restarts trace + 21 * rounds)%nat /\
    MessengerLog.dispatched
      (rev (snd (recvLoop cfg (MessengerLog.flaky err m rounds) 0 trace)))
    = MessengerLog.dispatched (rev trace) ++ repeat m rounds).
  { induction rounds as [|rounds IH]; intros trace.
    - simpl. rewrite app_nil_r. by split_and!; try lia.
    - cbn [MessengerLog.flaky].
      destruct (recvLoop_failures err 21
                  (ReceiveMessage m false 0 :: MessengerLog.flaky err m rounds)
                  0 trace Herr ltac:(lia) ltac:(lia))
        as (trace' & -> & Hrestarts & Hdisp).
      cbn [recvLoop Z.gtb Z.compare].
      destruct (IH (Dispatch m :: trace')) as (Hr & Hn & Hd).
      assert (Hone : MessengerLog.dispatched (rev (Dispatch m :: trace'))
                     = MessengerLog.dispatched (rev trace) ++ [m]).
      { rewrite <- Hdisp. unfold MessengerLog.dispatched. cbn [rev].
        by rewrite omap_app. }
      rewrite Hr, Hn, Hd, Hone, restarts_cons, Hrestarts.
      split_and!; [done|simpl; lia|by rewrite <- app_assoc]. }
  unfold Start. destruct (Hloop []) as (Hr & Hn & Hd).
  destruct (recvLoop cfg (MessengerLog.flaky err m rounds) 0 []) as [r trace].
  simpl in *. rewrite restarts_rev. by split_and!.
Qed.

End ReceiveLoop.

(** *** The scenarios, replayed *)

(** A backend that answers 500: the counter stays where it was. *)
Lemma counter_moves_by_three_witness :
  0 <= Messenger.consecutiveErrors Scenario.idle /\
  Messenger.consecutiveErrors Scenario.idle + 3 <= GoInt.max_int /\
  Messenger.consecutiveErrors
    (Messenger.final
       (Messenger.handleRequest Scenario.J0 (Scenario.backend_answers 500)
          (Scenario.message Scenario.text_m1) Scenario.idle)) = 0.
Proof.
  assert (Hfit : Messenger.consecutiveErrors Scenario.idle + 3 <= GoInt.max_int).
  { unfold GoInt.max_int. simpl. lia. }
  split; [simpl; lia|]. split; [exact Hfit|].
  pose proof (counter_moves_by_three Scenario.J0 (Scenario.backend_answers 500)
                (Scenario.message Scenario.text_m1) Scenario.idle
                ltac:(simpl; lia) Hfit) as Hmoves.
  cbn zeta in Hmoves. destruct Hmoves as [Hzero|Hup]; [exact Hzero|].
  reflexivity.
Defined.

(** Forty failures in a row: twenty-one restarts. *)
Lemma restart_streak_bounded_witness :
  forallb MessengerLog.is_failure (repeat Scenario.receive_fails 40) = true /\
  (Messenger.restarts
     (snd (Messenger.Start Scenario.cfg0 (repeat Scenario.receive_fails 40)))
   <= 21)%nat.
Proof.
  split; [reflexivity|].
  apply (restart_streak_bounded Scenario.cfg0 (repeat Scenario.receive_fails 40)).
  reflexivity.
Defined.

(** Three rounds of twenty-one failures and a message. *)
Lemma restart_budget_is_per_streak_witness :
  errors_Is (errors_New "connection reset") IsCanceled = false /\
  fst (Messenger.Start Scenario.cfg0
         (MessengerLog.flaky (errors_New "connection reset")
            (Scenario.message Scenario.text_m1) 3))
  = Messenger.Receiving 0 /\
  Messenger.restarts
    (snd (Messenger.Start Scenario.cfg0
            (MessengerLog.flaky (errors_New "connection reset")
               (Scenario.message Scenario.text_m1) 3)))
  = 63%nat.
Proof.
  split; [reflexivity|].
  destruct (restart_budget_is_per_streak Scenario.cfg0
              (errors_New "connection reset")
              (Scenario.message Scenario.text_m1) 3 eq_refl)
    as (Hloop & Hrestarts & _).
  split; [exact Hloop|exact Hrestarts].
Defined.

(** The model with its adapter, answered 200 by the backend. *)
Lemma message_status_mapping_witness :
  exists r resp,
    Messenger.parseRequest Scenario.J0 (Scenario.message Scenario.text_m3_a3)
    = (Some r, None) /\
    Messenger.published
      (Messenger.log
         (Messenger.final
            (Messenger.handleRequest Scenario.J0 (Scenario.backend_answers 200)
               (Scenario.message Scenario.text_m3_a3) Scenario.idle)))
    = [resp] /\
    Messenger.response_StatusCode resp = 200.
Proof.
  eexists. 
  destruct (message_status_mapping Scenario.J0 (Scenario.backend_answers 200)
              (Scenario.message Scenario.text_m3_a3) Scenario.idle
              _ None eq_refl) as (resp & Hpub & _ & Hstatus).
  exists resp. split; [reflexivity|]. split; [exact Hpub|exact Hstatus].
Defined.
